(** * nwc-reports: the revenue-report pipeline of [get_report.py]

    A shallow embedding of the table normaliser ([DataFrameOperations],
    [get_df_from_excel]) and of the report aggregates ([Report]), with the
    properties of the specification proved about them.

    Modelling conventions.
    - A pandas frame is a list of column labels and a row-major list of
      rows; a Series is the list of one column's cells.  Every row of a
      well-formed frame ([wf]) has one cell per label, and labels used
      with a scalar key are unique (pandas hands back a sub-frame instead of
      a Series for a repeated label).
    - A number cell is a 64-bit integer, as in an [int64] column: sums and
      differences wrap around ([wrap64]).  Floating-point cells and
      missing values (NaN) are outside the cell type, so the frame given
      to [get_df_from_excel] is the parsed sheet after [read_excel] and
      [dropna].
    - A string is the UTF-8 encoding of the Python string; a character is
      a code point ([take_chars]).
    - Python exceptions are values of [exn]; a raising computation returns
      [Raise e] and skips what follows it. *)

From stdpp Require Import base tactics option list strings numbers pretty.

(** ** Exceptions and results *)

Inductive exn :=
  | KeyError (missing : list string)
  | IndexError
  | TypeError
  | AttributeError
  | ValueError.

Inductive result (A : Type) :=
  | Ok (a : A)
  | Raise (e : exn).
Arguments Ok {A} a.
Arguments Raise {A} e.

#[global] Instance result_ret : MRet result := λ A a, Ok a.
#[global] Instance result_bind : MBind result := λ A B f m,
  match m with Ok a => f a | Raise e => Raise e end.
#[global] Instance result_fmap : FMap result := λ A B f m,
  match m with Ok a => Ok (f a) | Raise e => Raise e end.

(** [for x in l: acc = f(acc, x)] where the body may raise. *)
Fixpoint foldM {A B : Type} (f : A → B → result A) (acc : A) (l : list B)
  : result A :=
  match l with
  | [] => Ok acc
  | x :: l' => acc' ← f acc x; foldM f acc' l'
  end.

(** ** Cells, series and frames *)

Inductive cell :=
  | Num (z : Z)
  | Str (s : string)
  | Date (year month day : nat).

#[global] Instance cell_eq_dec : EqDecision cell.
Proof. solve_decision. Defined.
#[global] Instance cell_inhabited : Inhabited cell := populate (Num 0%Z).

Record Frame (L A : Type) := mkFrame {
  columns : list L;
  rows : list (list A)
}.
Arguments mkFrame {L A} columns rows.
Arguments columns {L A} f.
Arguments rows {L A} f.

Abbreviation Series := (list cell).
Abbreviation DataFrame := (Frame string cell).
(** The sheet as parsed with [header=[3, 4, 5]]: a label is the tuple of
    its header tiers. *)
Abbreviation RawTable := (Frame (list string) cell).

(** ** Cell arithmetic *)

(** The value that 64-bit two's-complement arithmetic keeps of a result. *)
Definition wrap64 (z : Z) : Z := ((z + 2 ^ 63) mod 2 ^ 64 - 2 ^ 63)%Z.

(** The integers an [int64] cell can hold. *)
Definition in_int64 (z : Z) : bool :=
  bool_decide (- 2 ^ 63 ≤ z < 2 ^ 63)%Z.

(** [x + y] on the values a column can hold: numbers add as [int64]
    does, text is concatenated, anything else is a type error. *)
Definition add_cell (x y : cell) : result cell :=
  match x, y with
  | Num a, Num b => Ok (Num (wrap64 (a + b)))
  | Str a, Str b => Ok (Str (a +:+ b))
  | _, _ => Raise TypeError
  end.

(** [x - y]; text has no difference. *)
Definition sub_cell (x y : cell) : result cell :=
  match x, y with
  | Num a, Num b => Ok (Num (wrap64 (a - b)))
  | _, _ => Raise TypeError
  end.

(** [lambda x: x != 0]: only the number zero equals [0]. *)
Definition nonzero (x : cell) : bool :=
  match x with
  | Num z => negb (z =? 0)%Z
  | _ => true
  end.

Definition sumZ (l : list Z) : Z := foldr Z.add 0%Z l.

(** [Series + Series] on two columns of one frame (same index). *)
Definition add_series (a b : Series) : result Series :=
  mapM (λ xy, add_cell xy.1 xy.2) (zip a b).

(** [Series.sum()]: [0] for an empty column, otherwise the cells added
    from the first one on; dates cannot be summed. *)
Definition sum_series (s : Series) : result cell :=
  match s with
  | [] => Ok (Num 0)
  | Date _ _ _ :: _ => Raise TypeError
  | c :: s' => foldM add_cell c s'
  end.

(** [Series.iloc[i]] *)
Definition iloc {A : Type} (i : nat) (s : list A) : result A :=
  match s !! i with
  | Some c => Ok c
  | None => Raise IndexError
  end.

(** ** Frame primitives *)

Section frame_ops.
Context {A : Type} `{Inhabited A}.

(** Position of the first column with this label. *)
Definition get_loc (key : string) (cols : list string) : option nat :=
  fst <$> list_find (λ c, c = key) cols.

(** Positions of all columns with this label. *)
Definition get_indexer_for (key : string) (cols : list string) : list nat :=
  filter (λ p, cols !! p = Some key) (seq 0 (length cols)).

Definition column_at (p : nat) (df : Frame string A) : list A :=
  (λ r, r !!! p) <$> rows df.

(** A frame restricted to the columns at the given positions. *)
Definition take_cols (indexer : list nat) (df : Frame string A)
  : Frame string A :=
  mkFrame ((λ p, columns df !!! p) <$> indexer)
          ((λ r, (λ p, r !!! p) <$> indexer) <$> rows df).

(** [df[key]] *)
Definition getitem (key : string) (df : Frame string A) : result (list A) :=
  match get_loc key (columns df) with
  | Some p => Ok (column_at p df)
  | None => Raise (KeyError [key])
  end.

(** [df[[k1, k2, ...]]]: every key must be a label; the result has one
    column per key occurrence, in key order. *)
Definition getitem_list (keys : list string) (df : Frame string A)
  : result (Frame string A) :=
  let missing := filter (λ k, k ∉ columns df) keys in
  if decide (missing = []) then
    Ok (take_cols (keys ≫= λ k, get_indexer_for k (columns df)) df)
  else Raise (KeyError missing).

(** [df[key] = s]: overwrite the column in place, or append a new one. *)
Definition setitem (key : string) (s : list A) (df : Frame string A)
  : Frame string A :=
  match get_loc key (columns df) with
  | Some p => mkFrame (columns df) (zip_with (λ r v, <[p:=v]> r) (rows df) s)
  | None =>
      mkFrame (columns df ++ [key]) (zip_with (λ r v, r ++ [v]) (rows df) s)
  end.

(** Positions of the labels that are not dropped. *)
Definition kept_positions (labels cols : list string) : list nat :=
  filter (λ p, cols !!! p ∉ labels) (seq 0 (length cols)).

(** [df.drop(labels, axis=1)]: every label must exist. *)
Definition drop_cols (labels : list string) (df : Frame string A)
  : result (Frame string A) :=
  let missing := filter (λ l, l ∉ columns df) labels in
  if decide (missing = []) then
    Ok (take_cols (kept_positions labels (columns df)) df)
  else Raise (KeyError missing).

(** [df.map(f)] *)
Definition frame_map {B : Type} (f : A → B) (df : Frame string A)
  : Frame string B :=
  mkFrame (columns df) (map f <$> rows df).

End frame_ops.

(** [df.sum()] of a frame of booleans: per column, the number of [True]. *)
Definition frame_sum (df : Frame string bool) : list Z :=
  (λ p, sumZ ((λ r, Z.b2z (r !!! p)) <$> rows df))
    <$> seq 0 (length (columns df)).

(** Unique labels, and one cell per label in every row. *)
Definition wf {A : Type} (df : Frame string A) : Prop :=
  NoDup (columns df) ∧
  Forall (λ r, length r = length (columns df)) (rows df).

(** ** Strings *)

(** [needle in hay] *)
Fixpoint contains (needle hay : string) : bool :=
  String.prefix needle hay ||
  match hay with
  | EmptyString => false
  | String _ hay' => contains needle hay'
  end.

(** A byte [10xxxxxx] continues the code point begun before it. *)
Definition is_continuation (c : Ascii.ascii) : bool :=
  let n := Ascii.nat_of_ascii c in
  bool_decide (128 ≤ n < 192)%nat.

(** [s[:n]]: the first [n] characters, each with all its bytes. *)
Fixpoint take_chars (n : nat) (s : string) : string :=
  match s with
  | EmptyString => EmptyString
  | String c s' =>
      if is_continuation c then String c (take_chars n s')
      else
        match n with
        | O => EmptyString
        | S n' => String c (take_chars n' s')
        end
  end.

(** [s[:-1]] *)
Fixpoint drop_last (s : string) : string :=
  match s with
  | EmptyString => EmptyString
  | String c s' =>
      match s' with
      | EmptyString => EmptyString
      | String _ _ => String c (drop_last s')
      end
  end.

(** ** Constants *)

Definition REVENUE_GENERATING_CATEGORIES : list string :=
  [ "Consultation"; "Lab"; "Radiology"; "Procedure"; "Lab"; "Consumable";
    "Drug" ].

(** The list that [focus_on_specific_columns] appends to [required_cols]. *)
Definition METADATA_COLUMNS : list string :=
  [ "Net Revenue"; "Ins."; "Policy Name"; "New Reg."; "Old Reg.";
    "Speciality"; "Doctor Name"; "(CVR) Date" ].

(** ** DataFrameOperations.rename_cols *)

Definition is_placeholder (col : string) : bool := contains "Unnamed" col.

(** The body of the outer loop: the flat name of one column. *)
Definition rename_col (col_list : list string) : string :=
  let new_col_name :=
    foldl (λ new_col_name col,
             if is_placeholder col then new_col_name
             else new_col_name +:+ (col +:+ "_"))
          "" col_list in
  drop_last new_col_name.

Definition rename_cols (df : RawTable) : DataFrame :=
  mkFrame (rename_col <$> columns df) (rows df).

(** The specification's wording of the flat name: the labels that are not
    placeholders, joined with an underscore. *)
Definition joined_name (tiers : list string) : string :=
  String.concat "_" (filter (λ t, is_placeholder t = false) tiers).

(** What the inner loop has accumulated after a run of tiers. *)
Fixpoint with_trailing (kept : list string) : string :=
  match kept with
  | [] => ""
  | t :: kept' => (t +:+ "_") +:+ with_trailing kept'
  end.

(** ** DataFrameOperations.focus_on_specific_columns *)

Definition pad_left (width : nat) (s : string) : string :=
  foldr (λ _ acc, "0" +:+ acc) s (seq 0 (width - String.length s)).

(** [x.strftime("%Y-%m-%d")]; only a date has the method. *)
Definition strftime (x : cell) : result cell :=
  match x with
  | Date y m d =>
      Ok (Str (pad_left 4 (pretty y) +:+ "-" +:+ pad_left 2 (pretty m)
               +:+ "-" +:+ pad_left 2 (pretty d)))
  | _ => Raise AttributeError
  end.

Definition required_cols (df : DataFrame) : list string :=
  filter (λ col, contains "_Net_" col) (columns df) ++ METADATA_COLUMNS.

Definition focus_on_specific_columns (df : DataFrame) : result DataFrame :=
  df ← getitem_list (required_cols df) df;
  dates ← getitem "(CVR) Date" df;
  formatted ← mapM strftime dates;
  mret (setitem "(CVR) Date" formatted df).

(** ** DataFrameOperations.get_revenue_per_category *)

Definition cash_col (category : string) : string := category +:+ "_Net_Cash".
Definition ins_col (category : string) : string := category +:+ "_Net_Ins.".

(** One iteration of the loop; the state is the frame and [remove_cols]. *)
Definition fold_category (st : DataFrame * list string) (category : string)
  : result (DataFrame * list string) :=
  cash ← getitem (cash_col category) st.1;
  ins ← getitem (ins_col category) st.1;
  total ← add_series cash ins;
  mret (setitem category total st.1,
        st.2 ++ [cash_col category; ins_col category]).

(** The function with the category list as a parameter. *)
Definition get_revenue_per_category_over (categories : list string)
    (df : DataFrame) : result DataFrame :=
  st ← foldM fold_category (df, []) categories;
  drop_cols st.2 st.1.

Definition get_revenue_per_category : DataFrame → result DataFrame :=
  get_revenue_per_category_over REVENUE_GENERATING_CATEGORIES.

(** ** get_df_from_excel, from the parsed sheet on *)

Definition get_df_from_excel (raw : RawTable) : result DataFrame :=
  let df := rename_cols raw in
  df ← focus_on_specific_columns df;
  get_revenue_per_category df.

(** ** Report *)

Record Indicator := mkIndicator { value : cell; title : string }.

Record PieChart := mkPieChart {
  labels : list string;
  values : list cell;
  textinfo : string
}.

(** [df[[...]].map(lambda x: x != 0).sum().sum()] *)
Definition count_nonzero (keys : list string) (df : DataFrame) : result Z :=
  sub ← getitem_list keys df;
  mret (sumZ (frame_sum (frame_map nonzero sub))).

Definition calculate_number_of_episodes (df : DataFrame) : result Indicator :=
  number ← count_nonzero REVENUE_GENERATING_CATEGORIES df;
  mret (mkIndicator (Num number) "Revenue Generating<br>Episodes").

Definition calculate_number_of_patients (df : DataFrame) : Indicator :=
  mkIndicator (Num (Z.of_nat (length (rows df)))) "Number of Patients".

Definition calculate_net_revnenue (df : DataFrame) : result Indicator :=
  revenue ← getitem "Net Revenue" df;
  total ← sum_series revenue;
  mret (mkIndicator total "Net Revenue").

Definition calculate_new_vs_old_reg (df : DataFrame) : result PieChart :=
  new_col ← getitem "New Reg." df;
  new_reg ← sum_series new_col;
  old_col ← getitem "Old Reg." df;
  old_reg ← sum_series old_col;
  mret (mkPieChart ["New"; "Old"] [new_reg; old_reg] "label+value").

(** Sorted list of the distinct keys, as [groupby] orders its groups. *)
Fixpoint insert_key (k : string) (l : list string) : list string :=
  match l with
  | [] => [k]
  | x :: l' =>
      match String.compare k x with
      | Lt => k :: l
      | Eq => l
      | Gt => x :: insert_key k l'
      end
  end.

Definition sort_unique (l : list string) : list string :=
  foldr insert_key [] l.

Definition as_str (c : cell) : result string :=
  match c with
  | Str s => Ok s
  | _ => Raise TypeError
  end.

(** The rows of the group of key [k], where the key column is at [p]. *)
Definition group_rows (p : nat) (k : string) (df : DataFrame)
  : list (list cell) :=
  filter (λ r, r !!! p = Str k) (rows df).

(** [df.groupby(key).sum()]: the sorted group keys (the index of the
    result) and, per group, the sum of every other column.  The keys are
    taken to be text, as the caller slices them with [i[:6]]: a key of
    another kind makes the computation raise here rather than there. *)
Definition groupby_sum (key : string) (df : DataFrame)
  : result (list string * DataFrame) :=
  match get_loc key (columns df) with
  | None => Raise (KeyError [key])
  | Some p =>
      keys ← mapM as_str (column_at p df);
      let index := sort_unique keys in
      let others := filter (λ q, q ≠ p) (seq 0 (length (columns df))) in
      summed ← mapM (λ k,
                  mapM (λ q, sum_series ((λ r, r !!! q) <$> group_rows p k df))
                       others) index;
      mret (index, mkFrame ((λ q, columns df !!! q) <$> others) summed)
  end.

Definition calculate_revenue_per_speciality (df : DataFrame)
  : result PieChart :=
  grouped ← groupby_sum "Speciality" df;
  revenue_per_speciality ← getitem "Net Revenue" grouped.2;
  mret (mkPieChart (take_chars 6 <$> grouped.1)
                   revenue_per_speciality "label+value").

Definition calculate_insurance_vs_non_insurance (df : DataFrame)
  : result PieChart :=
  ins ← getitem "Ins." df;
  insurance ← sum_series ins;
  revenue ← getitem "Net Revenue" df;
  total ← sum_series revenue;
  non_insurance ← sub_cell total insurance;
  mret (mkPieChart ["Non Ins"; "Ins"] [non_insurance; insurance]
                   "label+value").

(** [d[k] = v] on a dict: a known key keeps its place. *)
Fixpoint dict_set (k : string) (v : cell) (d : list (string * cell))
  : list (string * cell) :=
  match d with
  | [] => [(k, v)]
  | kv :: d' => if decide (kv.1 = k) then (k, v) :: d' else kv :: dict_set k v d'
  end.

(** One iteration of the loop of [calculate_episodes_per_category]. *)
Definition episodes_step (df : DataFrame) (episodes_per_category : list (string * cell))
    (category : string) : result (list (string * cell)) :=
  episodes ← count_nonzero [category] df;
  mret (if decide (episodes ≠ 0%Z)
        then dict_set category (Num episodes) episodes_per_category
        else episodes_per_category).

Definition calculate_episodes_per_category (df : DataFrame)
  : result PieChart :=
  episodes_per_category ←
    foldM (episodes_step df) [] REVENUE_GENERATING_CATEGORIES;
  mret (mkPieChart episodes_per_category.*1 episodes_per_category.*2
                   "label+value").

(** The composed chart: the caption and the traces with their grid cell. *)
Inductive trace :=
  | IndicatorTrace (mode : string) (ind : Indicator)
  | PieTrace (pie : PieChart).

Record Figure := mkFigure {
  x_title : cell;
  traces : list (trace * (nat * nat));
  height : nat;
  width : nat;
  showlegend : bool
}.

(** [df["(CVR) Date"].iloc[0]], an argument of [make_subplots]. *)
Definition caption (df : DataFrame) : result cell :=
  dates ← getitem "(CVR) Date" df;
  iloc 0 dates.

(** What [make_subplots] asks of its [x_title]: a caption is text; an
    empty or zero argument means no caption; any other number, or a date,
    is refused when the annotation is built. *)
Definition make_subplots (x_title : cell) : result unit :=
  match x_title with
  | Str _ => Ok ()
  | Num z => if decide (z = 0%Z) then Ok () else Raise ValueError
  | Date _ _ _ => Raise ValueError
  end.

Definition make_plot (df : DataFrame) : result Figure :=
  x_title ← caption df;
  _ ← make_subplots x_title;
  episodes ← calculate_number_of_episodes df;
  let patients := calculate_number_of_patients df in
  revenue ← calculate_net_revnenue df;
  per_category ← calculate_episodes_per_category df;
  reg ← calculate_new_vs_old_reg df;
  per_speciality ← calculate_revenue_per_speciality df;
  insurance ← calculate_insurance_vs_non_insurance df;
  mret (mkFigure x_title
          [ (IndicatorTrace "number" episodes, (1, 1));
            (IndicatorTrace "number" patients, (1, 2));
            (IndicatorTrace "number" revenue, (1, 3));
            (PieTrace per_category, (2, 1));
            (PieTrace reg, (2, 2));
            (PieTrace per_speciality, (2, 3));
            (PieTrace insurance, (3, 3)) ]
          800 1000 false).

(** ** streamlit_app: the upload handler up to the chart *)

Inductive page :=
  | Shown (df : DataFrame) (fig : Figure)
  | ErrorShown (e : exn).

Definition handle_upload (raw : RawTable) : page :=
  match (df ← get_df_from_excel raw; fig ← make_plot df; mret (df, fig)) with
  | Ok (df, fig) => Shown df fig
  | Raise e => ErrorShown e
  end.

(** ** Vocabulary of the statements *)

(** The cell of a row under a label, and the cell of the [i]-th row. *)
Definition row_cell (df : DataFrame) (r : list cell) (key : string)
  : option cell :=
  p ← get_loc key (columns df); r !! p.

Definition cell_at (df : DataFrame) (i : nat) (key : string) : option cell :=
  r ← rows df !! i; row_cell df r key.

Definition is_num (c : cell) : bool :=
  match c with
  | Num _ => true
  | _ => false
  end.

(** The column exists and holds numbers only. *)
Definition numeric_column (key : string) (df : DataFrame) : bool :=
  match getitem key df with
  | Ok s => forallb is_num s
  | Raise _ => false
  end.

(** The table has the cash-net and insurance-net column of every category. *)
Definition has_net_columns (categories : list string) (df : DataFrame)
  : Prop :=
  Forall (λ c, numeric_column (cash_col c) df ∧ numeric_column (ins_col c) df)
         categories.

(** No category is itself the name of a sub-column of a category. *)
Definition sub_free (categories : list string) : Prop :=
  Forall (λ c, Forall (λ c', c ≠ cash_col c' ∧ c ≠ ins_col c') categories)
         categories.

(** The loop invariant of [get_revenue_per_category]: the state [st]
    reached from the frame [df0] once the categories [done] are folded. *)
Record folded (df0 : DataFrame) (done : list string)
    (st : DataFrame * list string) : Prop := mkFolded {
  folded_wf : wf st.1;
  folded_rows : length (rows st.1) = length (rows df0);
  folded_other : ∀ k, k ∉ done → getitem k st.1 = getitem k df0;
  folded_done : ∀ c, c ∈ done →
    ∃ cash ins total,
      getitem (cash_col c) df0 = Ok cash ∧ getitem (ins_col c) df0 = Ok ins ∧
      add_series cash ins = Ok total ∧ getitem c st.1 = Ok total;
  folded_columns : ∀ k, k ∈ columns st.1 ↔ k ∈ columns df0 ∨ k ∈ done;
  folded_remove : st.2 = done ≫= λ c, [cash_col c; ins_col c]
}.

(** The category list without the repeated entry. *)
Definition DISTINCT_CATEGORIES : list string :=
  [ "Consultation"; "Lab"; "Radiology"; "Procedure"; "Consumable"; "Drug" ].

(** The row has a cell under the label and the cell is not zero. *)
Definition is_episode (df : DataFrame) (r : list cell) (category : string)
  : bool :=
  match row_cell df r category with
  | Some x => nonzero x
  | None => false
  end.

(** The number of rows with a non-zero cell in one category column. *)
Definition column_episodes (category : string) (df : DataFrame) : Z :=
  sumZ ((λ r, Z.b2z (is_episode df r category)) <$> rows df).

(** The specification's episode count: the non-zero cells, summed over all
    rows and over the entries of the category list. *)
Definition nonzero_cells (categories : list string) (df : DataFrame) : Z :=
  sumZ ((λ r, sumZ ((λ c, Z.b2z (is_episode df r c)) <$> categories))
          <$> rows df).

(** A normalized table: well-formed, with every category column and every
    metadata column. *)
Definition normalized (df : DataFrame) : Prop :=
  wf df ∧
  Forall (λ k, k ∈ columns df)
         (REVENUE_GENERATING_CATEGORIES ++ METADATA_COLUMNS).

(** The sum of the column under a label. *)
Definition column_total (key : string) (df : DataFrame) : result cell :=
  s ← getitem key df; sum_series s.

(** The net revenue of the rows of one speciality. *)
Definition group_total (df : DataFrame) (speciality : string) : result cell :=
  match get_loc "Speciality" (columns df),
        get_loc "Net Revenue" (columns df) with
  | Some p, Some q => sum_series ((λ r, r !!! q) <$> group_rows p speciality df)
  | _, _ => Raise (KeyError ["Speciality"; "Net Revenue"])
  end.

(** The loop invariant of [calculate_episodes_per_category]: the dict [d]
    once the categories [done] are counted. *)
Record counted (df : DataFrame) (done : list string)
    (d : list (string * cell)) : Prop := mkCounted {
  counted_keys : NoDup d.*1;
  counted_done : ∀ k, k ∈ d.*1 → k ∈ done;
  counted_values :
    Forall (λ kv, kv.2 = Num (column_episodes kv.1 df) ∧
                  column_episodes kv.1 df ≠ 0%Z) d;
  counted_length : (length d ≤ length done)%nat
}.

(** ** Sample tables *)

(** The two visits of the specification's example as
    [focus_on_specific_columns] hands them on: a consultation of 100
    (60 cash, 40 insurance) and a lab test of 50 (cash). *)
Definition two_row_selection : DataFrame :=
  mkFrame
    [ "Consultation_Net_Cash"; "Consultation_Net_Ins."; "Lab_Net_Cash";
      "Lab_Net_Ins."; "Radiology_Net_Cash"; "Radiology_Net_Ins.";
      "Procedure_Net_Cash"; "Procedure_Net_Ins."; "Consumable_Net_Cash";
      "Consumable_Net_Ins."; "Drug_Net_Cash"; "Drug_Net_Ins.";
      "Net Revenue"; "Ins."; "Policy Name"; "New Reg."; "Old Reg.";
      "Speciality"; "Doctor Name"; "(CVR) Date" ]
    [ [ Num 60; Num 40; Num 0; Num 0; Num 0; Num 0; Num 0; Num 0; Num 0;
        Num 0; Num 0; Num 0;
        Num 100; Num 40; Str "Acme"; Num 1; Num 0; Str "Cardiology";
        Str "Dr A"; Str "2024-03-07" ];
      [ Num 0; Num 0; Num 50; Num 0; Num 0; Num 0; Num 0; Num 0; Num 0;
        Num 0; Num 0; Num 0;
        Num 50; Num 0; Str "Cash"; Num 0; Num 1; Str "Cardiology";
        Str "Dr B"; Str "2024-03-07" ] ].

(** The normalized table of the specification's example.  The fields the
    example leaves open (policy, doctor, date) are parameters; the
    categories it does not mention are zero. *)
Definition two_row_table (policy_a doctor_a date_a policy_b doctor_b date_b
    : string) : DataFrame :=
  mkFrame
    [ "Net Revenue"; "Ins."; "Policy Name"; "New Reg."; "Old Reg.";
      "Speciality"; "Doctor Name"; "(CVR) Date"; "Consultation"; "Lab";
      "Radiology"; "Procedure"; "Consumable"; "Drug" ]
    [ [ Num 100; Num 40; Str policy_a; Num 1; Num 0; Str "Cardiology";
        Str doctor_a; Str date_a; Num 100; Num 0; Num 0; Num 0; Num 0;
        Num 0 ];
      [ Num 50; Num 0; Str policy_b; Num 0; Num 1; Str "Cardiology";
        Str doctor_b; Str date_b; Num 0; Num 50; Num 0; Num 0; Num 0;
        Num 0 ] ].

(** The example with its open fields filled in. *)
Definition sample_table : DataFrame :=
  two_row_table "Acme" "Dr A" "2024-03-07" "Cash" "Dr B" "2024-03-07".

(** A parsed sheet with the two visits: three header tiers per column, the
    lower tiers of a metadata column being unnamed placeholders. *)
Definition net_headers (category : string) : list (list string) :=
  [ [category; "Net"; "Cash"]; [category; "Net"; "Ins."] ].

Definition meta_header (n : nat) (field : string) : list string :=
  [ field; "Unnamed: " +:+ pretty n +:+ "_level_1";
    "Unnamed: " +:+ pretty n +:+ "_level_2" ].

Definition two_row_sheet : RawTable :=
  mkFrame
    ([ ["Consultation"; "Gross"; "Cash"] ]
       ++ (DISTINCT_CATEGORIES ≫= net_headers)
       ++ imap (λ i, meta_header (14 + i)) METADATA_COLUMNS)
    [ [ Num 120; Num 60; Num 40; Num 0; Num 0; Num 0; Num 0; Num 0; Num 0;
        Num 0; Num 0; Num 0; Num 0;
        Num 100; Num 40; Str "Acme"; Num 1; Num 0; Str "Cardiology";
        Str "Dr A"; Date 2024 3 7 ];
      [ Num 0; Num 0; Num 0; Num 50; Num 0; Num 0; Num 0; Num 0; Num 0;
        Num 0; Num 0; Num 0; Num 0;
        Num 50; Num 0; Str "Cash"; Num 0; Num 1; Str "Cardiology";
        Str "Dr B"; Date 2024 3 7 ] ].

(** The same sheet exported without the "Speciality" column. *)
Definition sheet_without_speciality : RawTable :=
  mkFrame (delete 18%nat (columns two_row_sheet))
          (delete 18%nat <$> rows two_row_sheet).

(** A normalized table without rows. *)
Definition empty_table : DataFrame := mkFrame (columns sample_table) [].

(** The specification's example read as a statement about the code: the
    values it expects of the six aggregates. *)
Definition example_as_stated (df : DataFrame) : Prop :=
  value (calculate_number_of_patients df) = Num 2 ∧
  (∃ ind, calculate_net_revnenue df = Ok ind ∧ value ind = Num 150) ∧
  (∃ ind, calculate_number_of_episodes df = Ok ind ∧ value ind = Num 2) ∧
  (∃ pie, calculate_insurance_vs_non_insurance df = Ok pie ∧
     ("Ins", Num 40) ∈ zip (labels pie) (values pie) ∧
     ("Non Ins", Num 110) ∈ zip (labels pie) (values pie)) ∧
  (∃ pie, calculate_revenue_per_speciality df = Ok pie ∧
     zip (labels pie) (values pie) = [("Cardiol", Num 150)]) ∧
  (∃ pie, calculate_new_vs_old_reg df = Ok pie ∧
     values pie = [Num 1; Num 1]).

(** ** Vocabulary of the further properties *)

(** The amount in a numeric cell. *)
Definition num_of (c : cell) : Z :=
  match c with
  | Num z => z
  | _ => 0%Z
  end.

(** The total of a column of amounts. *)
Definition amount_total (s : Series) : Z := sumZ (num_of <$> s).

(** A number that an [int64] column can hold. *)
Definition is_int64 (c : cell) : bool :=
  match c with
  | Num z => in_int64 z
  | _ => false
  end.

(** The column exists and is an [int64] column. *)
Definition int64_column (key : string) (df : DataFrame) : bool :=
  match getitem key df with
  | Ok s => forallb is_int64 s
  | Raise _ => false
  end.

(** The selection of the example without its "Net Revenue" column. *)
Definition two_row_selection_without_revenue : DataFrame :=
  mkFrame (delete 12%nat (columns two_row_selection))
          (delete 12%nat <$> rows two_row_selection).

(** The labels of a frame after [df[c] = ...]: a new label comes last. *)
Definition add_label (cols : list string) (c : string) : list string :=
  if decide (c ∈ cols) then cols else cols ++ [c].

(** Every sub-column name of the category list. *)
Definition SUB_COLUMNS : list string :=
  REVENUE_GENERATING_CATEGORIES ≫= λ c, [cash_col c; ins_col c].

(** The selection of the example without "Radiology_Net_Ins.". *)
Definition two_row_selection_without_radiology_ins : DataFrame :=
  mkFrame (delete 5%nat (columns two_row_selection))
          (delete 5%nat <$> rows two_row_selection).

Definition is_date (c : cell) : bool :=
  match c with
  | Date _ _ _ => true
  | _ => false
  end.

Definition is_str (c : cell) : bool :=
  match c with
  | Str _ => true
  | _ => false
  end.

(** The example's sheet with flat column names, dates still unformatted. *)
Definition two_row_flat : DataFrame := rename_cols two_row_sheet.

(** The same with a text cell where the first visit's date belongs. *)
Definition two_row_flat_text_date : DataFrame :=
  mkFrame (columns two_row_flat)
          (<[0%nat := <[20%nat := Str "07/03/2024"]>
                        (rows two_row_flat !!! 0%nat)]> (rows two_row_flat)).

(** The item that the loop of [calculate_episodes_per_category] stores for
    a category. *)
Definition episodes_item (df : DataFrame) (category : string)
  : string * cell :=
  (category, Num (column_episodes category df)).

(** The categories with a non-zero cell, in the order of the list. *)
Definition categories_with_episodes (df : DataFrame) : list string :=
  filter (λ c, column_episodes c df ≠ 0%Z) DISTINCT_CATEGORIES.

(** Strictly ascending in the order of [String.compare]. *)
Fixpoint ascending (l : list string) : Prop :=
  match l with
  | [] => True
  | x :: l' => Forall (λ y, String.compare x y = Lt) l' ∧ ascending l'
  end.

(** The column exists and holds text only. *)
Definition text_column (key : string) (df : DataFrame) : bool :=
  match getitem key df with
  | Ok s => forallb is_str s
  | Raise _ => false
  end.

(** The column exists and holds numbers only or text only, so that the
    cells of any of its groups can be added up. *)
Definition summable_column (key : string) (df : DataFrame) : bool :=
  match getitem key df with
  | Ok s => forallb is_num s || forallb is_str s
  | Raise _ => false
  end.

(** The example's table without its "Radiology" column. *)
Definition sample_table_without_radiology : DataFrame :=
  mkFrame (delete 10%nat (columns sample_table))
          (delete 10%nat <$> rows sample_table).

(** Two visits, one to a speciality whose name starts with an accented
    letter (two bytes in UTF-8). *)
Definition accented_table : DataFrame :=
  mkFrame ["Net Revenue"; "Speciality"]
          [ [Num 100; Str "Émergency"]; [Num 50; Str "Cardiology"] ].

(** The example's table with its dates kept as numbers. *)
Definition numeric_date_table : DataFrame :=
  setitem "(CVR) Date" [Num 20240307; Num 20240307] sample_table.

(** * Properties *)

(** ** Facts about strings *)

Section string_facts.

Lemma string_app_cons c (s1 s2 : string) :
  String c s1 +:+ s2 = String c (s1 +:+ s2).
Proof. reflexivity. Qed.

Lemma string_app_nil_r (s : string) : s +:+ "" = s.
Proof.
  induction s as [|c s IH]; [done|]. by rewrite string_app_cons, IH.
Qed.

Lemma string_app_assoc (s1 s2 s3 : string) :
  (s1 +:+ s2) +:+ s3 = s1 +:+ (s2 +:+ s3).
Proof.
  induction s1 as [|c s1 IH]; [done|]. by rewrite !string_app_cons, IH.
Qed.

Lemma drop_last_app (s1 s2 : string) :
  s2 ≠ "" → drop_last (s1 +:+ s2) = s1 +:+ drop_last s2.
Proof.
  intros Hne. induction s1 as [|c s1 IH]; [done|].
  rewrite !string_app_cons. cbn [drop_last]. rewrite IH.
  destruct (s1 +:+ s2) eqn:E; [|done].
  destruct s1; [done | discriminate].
Qed.

Lemma drop_last_snoc (s : string) : drop_last (s +:+ "_") = s.
Proof. rewrite drop_last_app; [|done]. apply string_app_nil_r. Qed.

End string_facts.

(** ** Header flattening *)

Section rename.

Lemma rename_loop acc tiers :
  foldl (λ new_col_name col,
           if is_placeholder col then new_col_name
           else new_col_name +:+ (col +:+ "_")) acc tiers
  = acc +:+ with_trailing (filter (λ t, is_placeholder t = false) tiers).
Proof.
  revert acc. induction tiers as [|t tiers IH]; intros acc; simpl.
  - by rewrite string_app_nil_r.
  - rewrite IH. rewrite filter_cons.
    destruct (is_placeholder t) eqn:E.
    + rewrite decide_False; done.
    + rewrite decide_True; [|done]. simpl. by rewrite string_app_assoc.
Qed.

Lemma with_trailing_nonempty t kept : with_trailing (t :: kept) ≠ "".
Proof.
  simpl. rewrite string_app_assoc. destruct t; discriminate.
Qed.

Lemma drop_last_with_trailing kept :
  drop_last (with_trailing kept) = String.concat "_" kept.
Proof.
  induction kept as [|t kept IH]; [done|].
  destruct kept as [|t' kept].
  - simpl. rewrite string_app_nil_r. apply drop_last_snoc.
  - change (with_trailing (t :: t' :: kept))
      with ((t +:+ "_") +:+ with_trailing (t' :: kept)).
    rewrite drop_last_app by apply with_trailing_nonempty.
    rewrite IH. cbn [String.concat]. by rewrite string_app_assoc.
Qed.

End rename.

(** C7: the flat name of a column is its tier labels that are not
    placeholders, joined with ["_"] and without a trailing separator; when
    every tier (in particular each of three) is a placeholder the name is
    the empty string; [rename_cols] renames every column so and leaves the
    rows alone. *)
Theorem rename_cols_joins_named_tiers :
  (∀ tiers : list string, rename_col tiers = joined_name tiers) ∧
  (∀ t1 t2 t3 : string,
     is_placeholder t1 = true → is_placeholder t2 = true →
     is_placeholder t3 = true → rename_col [t1; t2; t3] = "") ∧
  (∀ df : RawTable,
     columns (rename_cols df) = joined_name <$> columns df ∧
     rows (rename_cols df) = rows df).
Proof.
  assert (Hjoin : ∀ tiers, rename_col tiers = joined_name tiers).
  { intros tiers. unfold rename_col, joined_name.
    rewrite rename_loop. simpl. apply drop_last_with_trailing. }
  split; [done|]. split.
  - intros t1 t2 t3 H1 H2 H3. rewrite Hjoin. unfold joined_name.
    rewrite !filter_cons, filter_nil.
    rewrite !decide_False; [done| | |]; congruence.
  - intros df. split; [|done]. simpl.
    apply list_fmap_ext. intros _ tiers _. apply Hjoin.
Qed.

Lemma rename_cols_joins_named_tiers_witness :
  rename_col ["Unnamed: 3_level_0"; "Unnamed: 3_level_1"; "Unnamed: 3_level_2"]
  = "".
Proof.
  apply (proj1 (proj2 rename_cols_joins_named_tiers)); reflexivity.
Defined.

(** ** The result monad *)

Section result_facts.
Context {A B : Type}.

Lemma bind_Ok (m : result A) (f : A → result B) (b : B) :
  m ≫= f = Ok b ↔ ∃ a, m = Ok a ∧ f a = Ok b.
Proof.
  destruct m as [a|e]; simpl; split.
  - eauto.
  - by intros (a' & [= <-] & Hf).
  - discriminate.
  - by intros (a' & [=] & _).
Qed.

Lemma bind_Raise (m : result A) (f : A → result B) (e : exn) :
  m = Raise e → m ≫= f = Raise e.
Proof. by intros ->. Qed.

End result_facts.

Section result_loops.
Context {A B : Type}.

Lemma mapM_Ok (f : A → result B) (l : list A) (k : list B) :
  mapM f l = Ok k ↔ Forall2 (λ x y, f x = Ok y) l k.
Proof.
  revert k. induction l as [|x l IH]; intros k.
  - split.
    + intros [= <-]. constructor.
    + by inversion 1.
  - change (mapM f (x :: l))
      with (f x ≫= λ y, mapM f l ≫= λ k', mret (y :: k')).
    rewrite bind_Ok. split.
    + intros (y & Hy & Hk). apply bind_Ok in Hk as (k' & Hk' & [= <-]).
      constructor; [done|]. by apply IH.
    + inversion 1 as [|? y ? k' Hy Hk']; subst. exists y. split; [done|].
      apply bind_Ok. exists k'. split; [by apply IH | done].
Qed.

Lemma mapM_Ok_length (f : A → result B) (l : list A) (k : list B) :
  mapM f l = Ok k → length k = length l.
Proof. intros Hk%mapM_Ok. symmetry. by eapply Forall2_length. Qed.

Lemma foldM_app (f : A → B → result A) (acc : A) (l1 l2 : list B) :
  foldM f acc (l1 ++ l2) = foldM f acc l1 ≫= λ acc', foldM f acc' l2.
Proof.
  revert acc. induction l1 as [|x l1 IH]; intros acc; simpl; [done|].
  destruct (f acc x) as [acc'|e]; simpl; [apply IH | done].
Qed.

End result_loops.

(** Splits the hypotheses that say a sequence of steps returned. *)
Ltac inv_ok :=
  repeat match goal with
  | H : _ ≫= _ = Ok _ |- _ => apply bind_Ok in H as (? & ? & H)
  | H : mret _ = Ok _ |- _ => injection H as H
  | H : Ok _ = Ok _ |- _ => injection H as H
  | H : Ok _ = Raise _ |- _ => discriminate H
  | H : Raise _ = Ok _ |- _ => discriminate H
  end.

(** ** Positions of labels *)

Section positions.
Implicit Types (k : string) (cols : list string) (p : nat).

Lemma get_loc_Some k cols p : get_loc k cols = Some p → cols !! p = Some k.
Proof.
  unfold get_loc. destruct (list_find _ cols) as [[i x]|] eqn:E; [|done].
  intros [= <-]. by apply list_find_Some in E as (? & -> & _).
Qed.

Lemma get_loc_None k cols : get_loc k cols = None ↔ k ∉ cols.
Proof.
  unfold get_loc. destruct (list_find _ cols) as [[i x]|] eqn:E; simpl.
  - apply list_find_Some in E as (Hi & -> & _). split; [done|].
    intros []. by eapply list_elem_of_lookup_2.
  - apply list_find_None in E. split; [|done]. intros _ Hin.
    by eapply Forall_forall in E.
Qed.

Lemma get_loc_elem_of k cols : k ∈ cols → ∃ p, get_loc k cols = Some p.
Proof.
  intros Hin. destruct (get_loc k cols) as [p|] eqn:E; [eauto|].
  by apply get_loc_None in E.
Qed.

Lemma get_loc_lt k cols p : get_loc k cols = Some p → (p < length cols)%nat.
Proof. intros Hp%get_loc_Some. by eapply lookup_lt_Some. Qed.

Lemma get_loc_NoDup k cols p :
  NoDup cols → cols !! p = Some k → get_loc k cols = Some p.
Proof.
  intros Hnd Hp.
  destruct (get_loc_elem_of k cols) as [q Hq].
  { by eapply list_elem_of_lookup_2. }
  rewrite Hq. f_equal. apply get_loc_Some in Hq.
  by eapply NoDup_lookup.
Qed.

End positions.

(** ** Reading and writing columns *)

Section column_facts.
Context {A : Type} `{Inhabited A}.
Implicit Types (df : Frame string A) (s : list A) (rs : list (list A))
  (key : string) (p q : nat).

Lemma fmap_lookup_insert_eq p rs s :
  Forall (λ r, (p < length r)%nat) rs → length s = length rs →
  (λ r, r !!! p) <$> zip_with (λ r v, <[p:=v]> r) rs s = s.
Proof.
  intros Hrs. revert s.
  induction Hrs as [|r rs Hr _ IH]; intros [|v s] [=]; [done|].
  simpl. by rewrite list_lookup_total_insert_eq, IH.
Qed.

Lemma fmap_lookup_insert_ne p q rs s :
  q ≠ p → length s = length rs →
  (λ r, r !!! q) <$> zip_with (λ r v, <[p:=v]> r) rs s
  = (λ r, r !!! q) <$> rs.
Proof.
  intros Hne. revert s.
  induction rs as [|r rs IH]; intros [|v s] [=]; [done|].
  simpl. by rewrite list_lookup_total_insert_ne, IH.
Qed.

Lemma fmap_lookup_snoc_eq n rs s :
  Forall (λ r, length r = n) rs → length s = length rs →
  (λ r, r !!! n) <$> zip_with (λ r v, r ++ [v]) rs s = s.
Proof.
  intros Hrs. revert s.
  induction Hrs as [|r rs Hr _ IH]; intros [|v s] [=]; [done|].
  simpl. rewrite IH by done. f_equal.
  rewrite lookup_total_app_r by lia. by rewrite Hr, Nat.sub_diag.
Qed.

Lemma fmap_lookup_snoc_lt n q rs s :
  Forall (λ r, length r = n) rs → (q < n)%nat → length s = length rs →
  (λ r, r !!! q) <$> zip_with (λ r v, r ++ [v]) rs s = (λ r, r !!! q) <$> rs.
Proof.
  intros Hrs Hq. revert s.
  induction Hrs as [|r rs Hr _ IH]; intros [|v s] [=]; [done|].
  simpl. rewrite IH by done. f_equal.
  apply lookup_total_app_l. lia.
Qed.

Lemma zip_with_insert_same p rs :
  zip_with (λ r v, <[p:=v]> r) rs ((λ r, r !!! p) <$> rs) = rs.
Proof.
  induction rs as [|r rs IH]; [done|]. simpl. f_equal; [|apply IH].
  apply list_insert_id'. intros Hp. by apply list_lookup_lookup_total_lt.
Qed.

Lemma length_column_at p df : length (column_at p df) = length (rows df).
Proof. apply length_fmap. Qed.

Lemma getitem_Ok key df s :
  getitem key df = Ok s ↔
  ∃ p, get_loc key (columns df) = Some p ∧ s = column_at p df.
Proof.
  unfold getitem. destruct (get_loc key (columns df)) as [p|]; split.
  - intros [= <-]. eauto.
  - by intros (? & [= <-] & ->).
  - discriminate.
  - by intros (? & [=] & _).
Qed.

Lemma getitem_length key df s :
  getitem key df = Ok s → length s = length (rows df).
Proof. intros (p & _ & ->)%getitem_Ok. apply length_column_at. Qed.

Lemma getitem_elem_of key df s : getitem key df = Ok s → key ∈ columns df.
Proof.
  intros (p & Hp%get_loc_Some & _)%getitem_Ok.
  by eapply list_elem_of_lookup_2.
Qed.

Lemma getitem_is_Ok key df : key ∈ columns df → ∃ s, getitem key df = Ok s.
Proof.
  intros (p & Hp)%get_loc_elem_of. exists (column_at p df).
  apply getitem_Ok. eauto.
Qed.

Lemma getitem_missing key df :
  key ∉ columns df → getitem key df = Raise (KeyError [key]).
Proof. intros Hk%get_loc_None. unfold getitem. by rewrite Hk. Qed.

Lemma wf_position df r p :
  wf df → r ∈ rows df → (p < length (columns df))%nat → (p < length r)%nat.
Proof.
  intros [_ Hrect] Hr Hp. rewrite Forall_forall in Hrect.
  by rewrite (Hrect r Hr).
Qed.

Lemma wf_positions df p :
  wf df → (p < length (columns df))%nat →
  Forall (λ r, (p < length r)%nat) (rows df).
Proof.
  intros Hwf Hp. apply Forall_forall. intros r Hr. by eapply wf_position.
Qed.

(** *** Assignment *)

Lemma columns_setitem key s df k :
  k ∈ columns (setitem key s df) ↔ k ∈ columns df ∨ k = key.
Proof.
  unfold setitem. destruct (get_loc key (columns df)) as [p|] eqn:E; simpl.
  - split; [auto|]. intros [?| ->]; [done|].
    apply get_loc_Some in E. by eapply list_elem_of_lookup_2.
  - rewrite elem_of_app, list_elem_of_singleton. done.
Qed.

Lemma length_rows_setitem key s df :
  length s = length (rows df) →
  length (rows (setitem key s df)) = length (rows df).
Proof.
  intros Hs. unfold setitem.
  destruct (get_loc key (columns df)); simpl;
    by rewrite length_zip_with_l_eq.
Qed.

Lemma wf_setitem key s df :
  wf df → length s = length (rows df) → wf (setitem key s df).
Proof.
  intros [Hnd Hrect] Hs. unfold setitem.
  destruct (get_loc key (columns df)) as [p|] eqn:E; split; simpl.
  - done.
  - apply Forall_forall. intros r' (r & v & -> & Hr & _)%elem_of_zip_with.
    rewrite length_insert. by eapply Forall_forall in Hrect.
  - apply NoDup_app. split; [done|]. split; [|apply NoDup_singleton].
    intros k Hk ->%list_elem_of_singleton. by apply get_loc_None in E.
  - apply Forall_forall. intros r' (r & v & -> & Hr & _)%elem_of_zip_with.
    rewrite !length_app. simpl. f_equal. by eapply Forall_forall in Hrect.
Qed.

Lemma getitem_setitem_eq key s df :
  wf df → length s = length (rows df) →
  getitem key (setitem key s df) = Ok s.
Proof.
  intros Hwf Hs. pose proof (wf_setitem key s df Hwf Hs) as [Hnd' _].
  revert Hnd'. unfold setitem, getitem.
  destruct (get_loc key (columns df)) as [p|] eqn:E; simpl; intros Hnd'.
  - rewrite E. f_equal. unfold column_at. simpl.
    apply fmap_lookup_insert_eq; [|done].
    apply wf_positions; [done|]. by eapply get_loc_lt.
  - rewrite (get_loc_NoDup key _ (length (columns df))); [|done|].
    + f_equal. unfold column_at. simpl.
      apply fmap_lookup_snoc_eq; [|done]. apply Hwf.
    + rewrite lookup_app_r by lia. by rewrite Nat.sub_diag.
Qed.

Lemma getitem_setitem_ne key key' s df :
  wf df → length s = length (rows df) → key' ≠ key →
  getitem key' (setitem key s df) = getitem key' df.
Proof.
  intros Hwf Hs Hne. pose proof (wf_setitem key s df Hwf Hs) as [Hnd' _].
  revert Hnd'. unfold setitem, getitem at 1.
  destruct (get_loc key (columns df)) as [p|] eqn:E; simpl; intros Hnd'.
  - unfold getitem. destruct (get_loc key' (columns df)) as [q|] eqn:E'; [|done].
    f_equal. unfold column_at. simpl. apply fmap_lookup_insert_ne; [|done].
    intros ->. apply get_loc_Some in E, E'. congruence.
  - unfold getitem. destruct (get_loc key' (columns df)) as [q|] eqn:E'.
    + rewrite (get_loc_NoDup key' _ q); [|done|].
      * f_equal. unfold column_at. simpl.
        apply fmap_lookup_snoc_lt with (n := length (columns df));
          [apply Hwf | by eapply get_loc_lt | done].
      * apply lookup_app_l_Some. by apply get_loc_Some.
    + assert (get_loc key' (columns df ++ [key]) = None) as ->; [|done].
      apply get_loc_None. apply get_loc_None in E'.
      rewrite elem_of_app, list_elem_of_singleton. tauto.
Qed.

(** Writing back the column that is already there changes nothing. *)
Lemma setitem_same key s df : getitem key df = Ok s → setitem key s df = df.
Proof.
  intros (p & Hp & ->)%getitem_Ok. unfold setitem. rewrite Hp.
  unfold column_at. rewrite zip_with_insert_same. by destruct df.
Qed.

End column_facts.

(** ** Selecting and dropping columns *)

Section selection_facts.
Context {A : Type} `{Inhabited A}.
Implicit Types (df : Frame string A) (keys labels : list string)
  (idx : list nat) (key : string) (p q : nat).

Lemma filter_missing_nil keys (cols : list string) :
  filter (λ k, k ∉ cols) keys = [] ↔ Forall (λ k, k ∈ cols) keys.
Proof.
  induction keys as [|k keys IH]; [by split; [constructor|]|].
  rewrite filter_cons, Forall_cons. destruct (decide (k ∉ cols)) as [Hk|Hk].
  - split; [done|]. by intros [].
  - rewrite IH. apply dec_stable in Hk. tauto.
Qed.

Lemma column_at_take idx df p q :
  idx !! q = Some p → column_at q (take_cols idx df) = column_at p df.
Proof.
  intros Hq. unfold column_at, take_cols. simpl.
  rewrite <- list_fmap_compose. apply list_fmap_ext. intros _ r _. simpl.
  apply list_lookup_total_correct. by rewrite list_lookup_fmap, Hq.
Qed.

Lemma length_rows_take idx df :
  length (rows (take_cols idx df)) = length (rows df).
Proof. apply length_fmap. Qed.

Lemma columns_take_lookup idx df p q key :
  idx !! q = Some p → columns df !! p = Some key →
  columns (take_cols idx df) !! q = Some key.
Proof.
  intros Hq Hp. simpl. rewrite list_lookup_fmap, Hq. simpl.
  by rewrite (list_lookup_total_correct _ _ _ Hp).
Qed.

Lemma wf_take_cols idx df :
  wf df → NoDup idx → Forall (λ p, (p < length (columns df))%nat) idx →
  wf (take_cols idx df).
Proof.
  intros [Hnd _] Hidx Hlt. split; simpl.
  - apply NoDup_fmap_2_strong; [|done].
    intros p q Hp Hq Heq. rewrite Forall_forall in Hlt.
    apply (NoDup_lookup (columns df) p q (columns df !!! p)); [done| |].
    + apply list_lookup_lookup_total_lt. auto.
    + rewrite Heq. apply list_lookup_lookup_total_lt. auto.
  - apply Forall_forall. intros r' (r & -> & _)%list_elem_of_fmap.
    by rewrite !length_fmap.
Qed.

(** With unique labels a present key has exactly one position. *)
Lemma get_indexer_for_unique key (cols : list string) p :
  NoDup cols → get_loc key cols = Some p → get_indexer_for key cols = [p].
Proof.
  intros Hnd Hp. apply get_loc_Some in Hp.
  symmetry. apply Permutation_singleton_l. apply NoDup_Permutation.
  - apply NoDup_singleton.
  - apply NoDup_filter, NoDup_seq.
  - intros q. unfold get_indexer_for.
    rewrite list_elem_of_singleton, list_elem_of_filter, elem_of_seq.
    split.
    + intros ->. split; [done|]. apply lookup_lt_Some in Hp. lia.
    + intros [Hq _]. by eapply NoDup_lookup.
Qed.

Lemma indexer_of_keys keys (cols : list string) :
  NoDup cols → Forall (λ k, k ∈ cols) keys →
  keys ≫= (λ k, get_indexer_for k cols)
  = (λ k, default 0%nat (get_loc k cols)) <$> keys.
Proof.
  intros Hnd. induction 1 as [|k keys Hk _ IH]; [done|].
  destruct (get_loc_elem_of k cols Hk) as [p Hp].
  change ((k :: keys) ≫= (λ k, get_indexer_for k cols))
    with (get_indexer_for k cols ++ keys ≫= (λ k, get_indexer_for k cols)).
  rewrite IH, (get_indexer_for_unique k cols p) by done.
  simpl. by rewrite Hp.
Qed.

Lemma getitem_list_Ok keys df :
  NoDup (columns df) → Forall (λ k, k ∈ columns df) keys →
  getitem_list keys df
  = Ok (take_cols ((λ k, default 0%nat (get_loc k (columns df))) <$> keys) df).
Proof.
  intros Hnd Hkeys. unfold getitem_list.
  rewrite decide_True by by apply filter_missing_nil.
  by rewrite indexer_of_keys.
Qed.

Lemma getitem_list_missing keys df key :
  key ∈ keys → key ∉ columns df →
  getitem_list keys df
  = Raise (KeyError (filter (λ k, k ∉ columns df) keys)).
Proof.
  intros Hin Hmiss. unfold getitem_list. rewrite decide_False; [done|].
  intros Hnil%filter_missing_nil. rewrite Forall_forall in Hnil. auto.
Qed.

(** *** [drop] *)

Lemma drop_cols_Ok labels df :
  Forall (λ l, l ∈ columns df) labels →
  drop_cols labels df = Ok (take_cols (kept_positions labels (columns df)) df).
Proof.
  intros Hl. unfold drop_cols. by rewrite decide_True by by apply filter_missing_nil.
Qed.

Lemma elem_of_kept_positions labels (cols : list string) p :
  p ∈ kept_positions labels cols ↔
  ∃ k, cols !! p = Some k ∧ k ∉ labels.
Proof.
  unfold kept_positions. rewrite list_elem_of_filter, elem_of_seq. split.
  - intros [Hk [_ Hp]]. exists (cols !!! p). split; [|done].
    apply list_lookup_lookup_total_lt. lia.
  - intros (k & Hp & Hk). rewrite (list_lookup_total_correct _ _ _ Hp).
    split; [done|]. apply lookup_lt_Some in Hp. lia.
Qed.

Lemma wf_dropped labels df :
  wf df → wf (take_cols (kept_positions labels (columns df)) df).
Proof.
  intros Hwf. apply wf_take_cols; [done|apply NoDup_filter, NoDup_seq|].
  apply Forall_forall. intros p (k & Hp & _)%elem_of_kept_positions.
  by eapply lookup_lt_Some.
Qed.

Lemma columns_dropped labels df key :
  key ∈ columns (take_cols (kept_positions labels (columns df)) df) ↔
  key ∈ columns df ∧ key ∉ labels.
Proof.
  simpl. rewrite list_elem_of_fmap. split.
  - intros (p & -> & (k & Hp & Hk)%elem_of_kept_positions).
    rewrite (list_lookup_total_correct _ _ _ Hp).
    split; [by eapply list_elem_of_lookup_2 | done].
  - intros [(p & Hp)%list_elem_of_lookup Hk]. exists p.
    rewrite (list_lookup_total_correct _ _ _ Hp). split; [done|].
    apply elem_of_kept_positions. eauto.
Qed.

Lemma getitem_dropped labels df key :
  wf df → key ∉ labels →
  getitem key (take_cols (kept_positions labels (columns df)) df)
  = getitem key df.
Proof.
  intros Hwf Hk. pose proof (wf_dropped labels df Hwf) as [Hnd' _].
  destruct (decide (key ∈ columns df)) as [Hin|Hin].
  - destruct (get_loc_elem_of _ _ Hin) as [p Hp].
    assert (p ∈ kept_positions labels (columns df)) as (q & Hq)%list_elem_of_lookup.
    { apply elem_of_kept_positions. exists key. by split; [apply get_loc_Some|]. }
    unfold getitem at 2. rewrite Hp. apply getitem_Ok. exists q. split.
    + apply get_loc_NoDup; [done|].
      eapply columns_take_lookup; [done | by apply get_loc_Some].
    + symmetry. by apply column_at_take.
  - rewrite !getitem_missing; [done..|]. rewrite columns_dropped. tauto.
Qed.

(** Only the set of dropped labels matters. *)
Lemma drop_cols_ext labels1 labels2 df :
  (∀ l, l ∈ labels1 ↔ l ∈ labels2) →
  Forall (λ l, l ∈ columns df) labels1 →
  drop_cols labels1 df = drop_cols labels2 df.
Proof.
  intros Heq Hl.
  assert (Forall (λ l, l ∈ columns df) labels2) as Hl2.
  { rewrite Forall_forall in *. intros l ?%Heq. auto. }
  rewrite (drop_cols_Ok labels1), (drop_cols_Ok labels2) by done.
  do 2 f_equal. unfold kept_positions. apply list_filter_iff.
  intros p. by rewrite Heq.
Qed.

End selection_facts.

(** ** Cells of a series *)

Section series_facts.
Implicit Types (a b t : Series) (i : nat).

Lemma length_add_series a b t :
  add_series a b = Ok t → length t = length (zip a b).
Proof. apply mapM_Ok_length. Qed.

Lemma add_series_lookup a b t i x y :
  add_series a b = Ok t → a !! i = Some x → b !! i = Some y →
  ∃ v, t !! i = Some v ∧ add_cell x y = Ok v.
Proof.
  intros Ht%mapM_Ok Hx Hy.
  assert (zip a b !! i = Some (x, y)) as Hxy.
  { apply lookup_zip_with_Some. eauto. }
  eapply Forall2_lookup_l in Ht as (v & Hv & Hadd); [|done]. eauto.
Qed.

Lemma add_series_numeric a b :
  forallb is_num a → forallb is_num b → ∃ t, add_series a b = Ok t.
Proof.
  revert b. induction a as [|x a IH]; intros [|y b] Ha Hb;
    try (by exists []).
  simpl in Ha, Hb. apply andb_True in Ha as [Hx Ha], Hb as [Hy Hb].
  destruct (IH b Ha Hb) as [t Ht].
  destruct x as [x| |]; [|done..]. destruct y as [y| |]; [|done..].
  exists (Num (wrap64 (x + y)) :: t). apply mapM_Ok. constructor; [done|].
  by apply mapM_Ok.
Qed.

Lemma forallb_lookup_num a i x :
  forallb is_num a → a !! i = Some x → ∃ z, x = Num z.
Proof.
  intros Ha Hx. apply Is_true_true, forallb_forall with (x := x) in Ha.
  - destruct x; [eauto | done..].
  - apply list_elem_of_In. by eapply list_elem_of_lookup_2.
Qed.

Lemma cell_at_getitem (df : DataFrame) key s i :
  wf df → getitem key df = Ok s → cell_at df i key = s !! i.
Proof.
  intros Hwf (p & Hp & ->)%getitem_Ok. unfold cell_at, row_cell, column_at.
  rewrite Hp, list_lookup_fmap. destruct (rows df !! i) as [r|] eqn:Hr; [|done].
  simpl. apply list_lookup_lookup_total_lt.
  eapply wf_position; [done | by eapply list_elem_of_lookup_2 |].
  by eapply get_loc_lt.
Qed.

End series_facts.

(** ** The folding loop *)

Section folding.
Implicit Types (df : DataFrame) (st : DataFrame * list string)
  (c : string) (done todo : list string).

Lemma sub_free_not_elem categories c :
  sub_free categories → c ∈ categories →
  (cash_col c ∉ categories) ∧ (ins_col c ∉ categories).
Proof.
  unfold sub_free. rewrite Forall_forall. intros Hfree Hc.
  split; intros Hin; specialize (Hfree _ Hin);
    rewrite Forall_forall in Hfree; destruct (Hfree _ Hc); done.
Qed.

Lemma sub_free_app_l l1 l2 : sub_free (l1 ++ l2) → sub_free l1.
Proof.
  unfold sub_free. rewrite !Forall_forall. intros Hfree c Hc.
  specialize (Hfree c). rewrite elem_of_app in Hfree.
  specialize (Hfree (or_introl Hc)). rewrite Forall_forall in *.
  intros c' Hc'. apply Hfree. rewrite elem_of_app. auto.
Qed.

Lemma folded_init df0 : wf df0 → folded df0 [] (df0, []).
Proof.
  intros Hwf. split; simpl; try done.
  - intros c Hc. by apply elem_of_nil in Hc.
  - intros k. rewrite elem_of_nil. tauto.
Qed.

Lemma fold_category_Ok st c st' :
  fold_category st c = Ok st' ↔
  ∃ cash ins total,
    getitem (cash_col c) st.1 = Ok cash ∧ getitem (ins_col c) st.1 = Ok ins ∧
    add_series cash ins = Ok total ∧
    st' = (setitem c total st.1, st.2 ++ [cash_col c; ins_col c]).
Proof.
  unfold fold_category. split.
  - intros Hst. inv_ok. subst. eauto 10.
  - intros (cash & ins & total & -> & -> & Ht & ->). simpl.
    by rewrite Ht.
Qed.

Lemma length_total df cash ins total k1 k2 :
  getitem k1 df = Ok cash → getitem k2 df = Ok ins →
  add_series cash ins = Ok total → length total = length (rows df).
Proof.
  intros Hc%getitem_length Hi%getitem_length Ht%length_add_series.
  rewrite Ht, length_zip_with. lia.
Qed.

(** One iteration keeps the invariant. *)
Lemma fold_category_folded df0 done st c st' :
  sub_free (done ++ [c]) → folded df0 done st →
  fold_category st c = Ok st' → folded df0 (done ++ [c]) st'.
Proof.
  intros Hfree [Hwf Hrows Hother Hdone Hcols Hrm].
  intros (cash & ins & total & Hcash & Hins & Htot & ->)%fold_category_Ok.
  pose proof (length_total _ _ _ _ _ _ Hcash Hins Htot) as Hlen.
  destruct (sub_free_not_elem (done ++ [c]) c Hfree) as [Hc1 Hc2].
  { rewrite elem_of_app, list_elem_of_singleton. auto. }
  rewrite elem_of_app in Hc1, Hc2.
  rewrite Hother in Hcash, Hins by tauto.
  split; simpl.
  - by apply wf_setitem.
  - by rewrite length_rows_setitem.
  - intros k Hk. rewrite elem_of_app, list_elem_of_singleton in Hk.
    rewrite getitem_setitem_ne by tauto. apply Hother. tauto.
  - intros c' Hc'. destruct (decide (c' = c)) as [->|Hne].
    + exists cash, ins, total. by rewrite getitem_setitem_eq.
    + rewrite elem_of_app, list_elem_of_singleton in Hc'.
      destruct (Hdone c') as (cash' & ins' & total' & ? & ? & ? & ?);
        [tauto|].
      exists cash', ins', total'. by rewrite getitem_setitem_ne.
  - intros k. rewrite columns_setitem, Hcols, elem_of_app,
      list_elem_of_singleton. tauto.
  - by rewrite Hrm, bind_app.
Qed.

(** An iteration succeeds when the two sub-columns hold numbers. *)
Lemma fold_category_total df0 done st c :
  sub_free (done ++ [c]) → folded df0 done st →
  numeric_column (cash_col c) df0 → numeric_column (ins_col c) df0 →
  ∃ st', fold_category st c = Ok st'.
Proof.
  intros Hfree Hst Hcash Hins.
  destruct (sub_free_not_elem (done ++ [c]) c Hfree) as [Hc1 Hc2].
  { rewrite elem_of_app, list_elem_of_singleton. auto. }
  rewrite elem_of_app in Hc1, Hc2. unfold numeric_column in Hcash, Hins.
  destruct (getitem (cash_col c) df0) as [cash|] eqn:Ecash; [|done].
  destruct (getitem (ins_col c) df0) as [ins|] eqn:Eins; [|done].
  destruct (add_series_numeric cash ins Hcash Hins) as [total Htot].
  eexists. apply fold_category_Ok. exists cash, ins, total.
  rewrite !(folded_other _ _ _ Hst) by tauto. done.
Qed.

Lemma foldM_folded df0 todo : ∀ done st st',
  sub_free (done ++ todo) → folded df0 done st →
  foldM fold_category st todo = Ok st' → folded df0 (done ++ todo) st'.
Proof.
  induction todo as [|c todo IH]; intros done st st' Hfree Hst Hrun.
  - injection Hrun as <-. by rewrite app_nil_r.
  - simpl in Hrun. apply bind_Ok in Hrun as (st1 & Hstep & Hrun).
    rewrite cons_middle, app_assoc in Hfree |- *.
    eapply IH; [done | | done].
    eapply fold_category_folded; [|done..]. by eapply sub_free_app_l.
Qed.

Lemma foldM_total df0 todo : ∀ done st,
  sub_free (done ++ todo) → folded df0 done st →
  has_net_columns todo df0 →
  ∃ st', foldM fold_category st todo = Ok st'.
Proof.
  induction todo as [|c todo IH]; intros done st Hfree Hst Hnet.
  - by eexists.
  - apply Forall_cons in Hnet as [[Hcash Hins] Hnet].
    rewrite cons_middle, app_assoc in Hfree.
    destruct (fold_category_total df0 done st c) as [st1 Hstep];
      [by eapply sub_free_app_l | done..|].
    destruct (IH (done ++ [c]) st1) as [st' Hrun]; [done| |done|].
    { eapply fold_category_folded; [|done..]. by eapply sub_free_app_l. }
    exists st'. simpl. by rewrite Hstep.
Qed.

(** Folding a category a second time leaves the frame as it is. *)
Lemma fold_category_again df0 done st c :
  sub_free done → folded df0 done st → c ∈ done →
  fold_category st c = Ok (st.1, st.2 ++ [cash_col c; ins_col c]).
Proof.
  intros Hfree Hst Hc.
  destruct (sub_free_not_elem done c Hfree Hc) as [Hc1 Hc2].
  destruct (folded_done _ _ _ Hst c Hc)
    as (cash & ins & total & Hcash & Hins & Htot & Hcur).
  apply fold_category_Ok. exists cash, ins, total.
  rewrite !(folded_other _ _ _ Hst) by done.
  by rewrite (setitem_same _ _ _ Hcur).
Qed.

(** The frame that the loop builds does not depend on [remove_cols]. *)
Lemma fold_category_remove_cols c df rm rm0 :
  fold_category (df, rm ++ rm0) c
  = (λ st, (st.1, rm ++ st.2)) <$> fold_category (df, rm0) c.
Proof.
  unfold fold_category. simpl.
  destruct (getitem (cash_col c) df) as [cash|]; [|done]. simpl.
  destruct (getitem (ins_col c) df) as [ins|]; [|done]. simpl.
  destruct (add_series cash ins) as [total|]; [|done]. simpl.
  by rewrite <- app_assoc.
Qed.

Lemma foldM_remove_cols todo : ∀ df rm rm0,
  foldM fold_category (df, rm ++ rm0) todo
  = (λ st, (st.1, rm ++ st.2)) <$> foldM fold_category (df, rm0) todo.
Proof.
  induction todo as [|c todo IH]; intros df rm rm0; [done|].
  simpl. rewrite fold_category_remove_cols.
  destruct (fold_category (df, rm0) c) as [[df1 rm1]|]; [|done].
  simpl. apply IH.
Qed.

(** The labels to drop are columns of the final frame. *)
Lemma folded_remove_present df0 done st :
  folded df0 done st → Forall (λ l, l ∈ columns st.1) st.2.
Proof.
  intros Hst. rewrite (folded_remove _ _ _ Hst). apply Forall_forall.
  intros l (c & Hl & Hc)%list_elem_of_bind.
  destruct (folded_done _ _ _ Hst c Hc)
    as (cash & ins & total & Hcash%getitem_elem_of & Hins%getitem_elem_of & _).
  apply (folded_columns _ _ _ Hst). left.
  apply elem_of_cons in Hl as [->|Hl]; [done|].
  by apply list_elem_of_singleton in Hl as ->.
Qed.

End folding.

(** ** The folding step as a whole *)

Section get_revenue.
Implicit Types (df : DataFrame) (categories : list string).

Lemma sub_free_categories : sub_free REVENUE_GENERATING_CATEGORIES.
Proof. unfold sub_free. compute_done. Qed.

Lemma elem_of_sub_columns categories k :
  k ∈ categories ≫= (λ c, [cash_col c; ins_col c]) ↔
  ∃ c, c ∈ categories ∧ (k = cash_col c ∨ k = ins_col c).
Proof.
  rewrite list_elem_of_bind. split; intros (c & H1 & H2); exists c.
  - split; [done|]. apply elem_of_cons in H1 as [->|H1]; [auto|].
    apply list_elem_of_singleton in H1. auto.
  - split; [|done]. rewrite !elem_of_cons. tauto.
Qed.

(** What the step returns, for any list of categories. *)
Lemma get_revenue_over_folded categories df df' :
  wf df → sub_free categories →
  get_revenue_per_category_over categories df = Ok df' →
  ∃ st, folded df categories st ∧
        df' = take_cols (kept_positions st.2 (columns st.1)) st.1.
Proof.
  intros Hwf Hfree Hrun. unfold get_revenue_per_category_over in Hrun.
  apply bind_Ok in Hrun as (st & Hloop & Hdrop).
  assert (folded df categories st) as Hst.
  { apply (foldM_folded df categories [] (df, [])); [done| |done].
    by apply folded_init. }
  exists st. split; [done|].
  rewrite drop_cols_Ok in Hdrop by by eapply folded_remove_present.
  by injection Hdrop.
Qed.

Lemma get_revenue_over_total categories df :
  wf df → sub_free categories → has_net_columns categories df →
  ∃ df', get_revenue_per_category_over categories df = Ok df'.
Proof.
  intros Hwf Hfree Hnet.
  destruct (foldM_total df categories [] (df, [])) as [st Hloop];
    [done | by apply folded_init | done |].
  assert (folded df categories st) as Hst.
  { apply (foldM_folded df categories [] (df, [])); [done| |done].
    by apply folded_init. }
  eexists. unfold get_revenue_per_category_over. rewrite Hloop. simpl.
  apply drop_cols_Ok. by eapply folded_remove_present.
Qed.

(** In the output a category column is the sum of its two sub-columns of
    the input, and no sub-column is left. *)
Lemma get_revenue_over_columns categories df df' :
  wf df → sub_free categories →
  get_revenue_per_category_over categories df = Ok df' →
  wf df' ∧ length (rows df') = length (rows df) ∧
  (∀ c, c ∈ categories →
     ∃ cash ins total,
       getitem (cash_col c) df = Ok cash ∧ getitem (ins_col c) df = Ok ins ∧
       add_series cash ins = Ok total ∧ getitem c df' = Ok total) ∧
  (∀ c, c ∈ categories →
     (cash_col c ∉ columns df') ∧ (ins_col c ∉ columns df')).
Proof.
  intros Hwf Hfree Hrun.
  destruct (get_revenue_over_folded _ _ _ Hwf Hfree Hrun) as (st & Hst & ->).
  split; [apply wf_dropped, Hst|].
  split; [rewrite length_rows_take; apply Hst|]. split.
  - intros c Hc.
    destruct (folded_done _ _ _ Hst c Hc)
      as (cash & ins & total & Hcash & Hins & Htot & Hcur).
    exists cash, ins, total. repeat split; try done.
    rewrite getitem_dropped; [done | apply Hst |].
    rewrite (folded_remove _ _ _ Hst), elem_of_sub_columns.
    intros (c' & Hc' & Heq).
    unfold sub_free in Hfree. rewrite Forall_forall in Hfree.
    specialize (Hfree c Hc). rewrite Forall_forall in Hfree.
    destruct (Hfree c' Hc'). tauto.
  - intros c Hc. rewrite !columns_dropped, (folded_remove _ _ _ Hst),
      !elem_of_sub_columns.
    split; intros [_ []]; exists c; auto.
Qed.

End get_revenue.

Section revisit.
Implicit Types (df : DataFrame) (c : string) (l : list string).

Lemma foldM_from_empty l df rm :
  foldM fold_category (df, rm) l
  = (λ st, (st.1, rm ++ st.2)) <$> foldM fold_category (df, []) l.
Proof. by rewrite <- (foldM_remove_cols l df rm []), app_nil_r. Qed.

(** A category that was folded before can be left out of the list. *)
Lemma get_revenue_over_revisit l1 c l2 df :
  wf df → sub_free (l1 ++ l2) → c ∈ l1 →
  get_revenue_per_category_over (l1 ++ c :: l2) df
  = get_revenue_per_category_over (l1 ++ l2) df.
Proof.
  intros Hwf Hfree Hc. unfold get_revenue_per_category_over.
  rewrite !foldM_app.
  destruct (foldM fold_category (df, []) l1) as [[d rm]|e] eqn:E1; [|done].
  assert (folded df l1 (d, rm)) as Hst.
  { apply (foldM_folded df l1 [] (df, []));
      [by eapply sub_free_app_l | by apply folded_init | done]. }
  cbn [mbind result_bind foldM].
  rewrite (fold_category_again df l1 (d, rm) c);
    [|by eapply sub_free_app_l|done..].
  cbn [mbind result_bind fst snd].
  rewrite (foldM_from_empty l2 d (rm ++ _)), (foldM_from_empty l2 d rm).
  destruct (foldM fold_category (d, []) l2) as [[d2 rm2]|e] eqn:E2; [|done].
  cbn [fmap result_fmap mbind result_bind fst snd].
  symmetry. apply drop_cols_ext.
  - intros k. rewrite !elem_of_app.
    assert (k ∈ [cash_col c; ins_col c] → k ∈ rm); [|tauto].
    intros Hk. pose proof (folded_remove _ _ _ Hst) as Hrm.
    simpl in Hrm. rewrite Hrm. apply elem_of_sub_columns. exists c. split; [done|].
    rewrite !elem_of_cons, elem_of_nil in Hk. tauto.
  - apply (folded_remove_present df (l1 ++ l2) (d2, rm ++ rm2)).
    apply (foldM_folded df l2 l1 (d, rm)); [done..|].
    by rewrite foldM_from_empty, E2.
Qed.

(** On numeric sub-columns the step returns, cell by cell, the [int64]
    sum of the cash and the insurance amount. *)
Lemma get_revenue_over_numeric categories df :
  wf df → sub_free categories → has_net_columns categories df →
  ∃ df', get_revenue_per_category_over categories df = Ok df' ∧
    length (rows df') = length (rows df) ∧
    (∀ i c, (i < length (rows df))%nat → c ∈ categories →
       ∃ a b : Z,
         cell_at df i (cash_col c) = Some (Num a) ∧
         cell_at df i (ins_col c) = Some (Num b) ∧
         cell_at df' i c = Some (Num (wrap64 (a + b)))) ∧
    (∀ c, c ∈ categories →
       (cash_col c ∉ columns df') ∧ (ins_col c ∉ columns df')).
Proof.
  intros Hwf Hfree Hnet.
  destruct (get_revenue_over_total _ _ Hwf Hfree Hnet) as [df' Hrun].
  destruct (get_revenue_over_columns _ _ _ Hwf Hfree Hrun)
    as (Hwf' & Hrows & Hsum & Hgone).
  exists df'. repeat split; try done; try (by apply Hgone).
  intros i c Hi Hc.
  destruct (Hsum c Hc) as (cash & ins & total & Hcash & Hins & Htot & Hcur).
  unfold has_net_columns in Hnet. rewrite Forall_forall in Hnet.
  destruct (Hnet c Hc) as [Hncash Hnins]. unfold numeric_column in *.
  rewrite Hcash in Hncash. rewrite Hins in Hnins.
  destruct (lookup_lt_is_Some_2 cash i) as [x Hx].
  { by rewrite (getitem_length _ _ _ Hcash). }
  destruct (lookup_lt_is_Some_2 ins i) as [y Hy].
  { by rewrite (getitem_length _ _ _ Hins). }
  destruct (forallb_lookup_num _ _ _ Hncash Hx) as [a ->].
  destruct (forallb_lookup_num _ _ _ Hnins Hy) as [b ->].
  destruct (add_series_lookup _ _ _ _ _ _ Htot Hx Hy) as (v & Hv & [= <-]).
  exists a, b.
  by rewrite (cell_at_getitem _ _ _ _ Hwf Hcash),
    (cell_at_getitem _ _ _ _ Hwf Hins), (cell_at_getitem _ _ _ _ Hwf' Hcur).
Qed.

(** Whatever the cells hold, in a returned table a category cell is the
    cash cell plus the insurance cell of the same row. *)
Lemma get_revenue_over_cells categories df df' :
  wf df → sub_free categories →
  get_revenue_per_category_over categories df = Ok df' →
  ∀ i c, (i < length (rows df))%nat → c ∈ categories →
    ∃ x y v,
      cell_at df i (cash_col c) = Some x ∧
      cell_at df i (ins_col c) = Some y ∧
      add_cell x y = Ok v ∧ cell_at df' i c = Some v.
Proof.
  intros Hwf Hfree Hrun i c Hi Hc.
  destruct (get_revenue_over_columns _ _ _ Hwf Hfree Hrun)
    as (Hwf' & _ & Hsum & _).
  destruct (Hsum c Hc) as (cash & ins & total & Hcash & Hins & Htot & Hcur).
  destruct (lookup_lt_is_Some_2 cash i) as [x Hx].
  { by rewrite (getitem_length _ _ _ Hcash). }
  destruct (lookup_lt_is_Some_2 ins i) as [y Hy].
  { by rewrite (getitem_length _ _ _ Hins). }
  destruct (add_series_lookup _ _ _ _ _ _ Htot Hx Hy) as (v & Hv & Hadd).
  exists x, y, v.
  by rewrite (cell_at_getitem _ _ _ _ Hwf Hcash),
    (cell_at_getitem _ _ _ _ Hwf Hins), (cell_at_getitem _ _ _ _ Hwf' Hcur).
Qed.

End revisit.

(** ** 64-bit arithmetic *)

Section int64.

Lemma wrap64_id (z : Z) : in_int64 z → wrap64 z = z.
Proof.
  unfold in_int64, wrap64. intros Hz%bool_decide_unpack.
  rewrite Z.mod_small by lia. lia.
Qed.

Lemma in_int64_wrap64 (z : Z) : in_int64 (wrap64 z).
Proof.
  unfold in_int64, wrap64. apply bool_decide_pack.
  pose proof (Z.mod_pos_bound (z + 2 ^ 63) (2 ^ 64)). lia.
Qed.

Lemma wrap64_add_l (a b : Z) : wrap64 (wrap64 a + b) = wrap64 (a + b).
Proof.
  unfold wrap64. f_equal.
  replace ((a + 2 ^ 63) mod 2 ^ 64 - 2 ^ 63 + b + 2 ^ 63)%Z
    with ((a + 2 ^ 63) mod 2 ^ 64 + b)%Z by lia.
  rewrite Zplus_mod_idemp_l. f_equal. lia.
Qed.

Lemma wrap64_add_r (a b : Z) : wrap64 (a + wrap64 b) = wrap64 (a + b).
Proof. by rewrite Z.add_comm, wrap64_add_l, Z.add_comm. Qed.

Lemma wrap64_sub_add (a b : Z) : wrap64 (wrap64 (a - b) + b) = wrap64 a.
Proof. rewrite wrap64_add_l. f_equal. lia. Qed.

(** A sum that does not fit wraps around. *)
Lemma add_cell_wraps :
  add_cell (Num (2 ^ 62)) (Num (2 ^ 62)) = Ok (Num (- 2 ^ 63)).
Proof. by vm_compute. Qed.

End int64.

(** ** Folding the sub-columns (C3, C9) *)

Lemma wf_two_row_selection : wf two_row_selection.
Proof. split; compute_done. Defined.

Lemma net_columns_two_row_selection :
  has_net_columns REVENUE_GENERATING_CATEGORIES two_row_selection.
Proof. unfold has_net_columns. compute_done. Defined.

Example fold_two_row_selection :
  get_revenue_per_category two_row_selection
  = Ok (two_row_table "Acme" "Dr A" "2024-03-07" "Cash" "Dr B" "2024-03-07").
Proof. vm_compute. reflexivity. Qed.

(** C3: on a table that has the cash-net and insurance-net column of every
    category, [get_revenue_per_category] returns a table which has neither
    sub-column left and in which, for every row and every category whose
    two sub-columns are [int64] columns, the category cell is the sum of
    that row's cash-net and insurance-net cells as the column arithmetic
    computes it (the 64-bit sum, which is the exact sum whenever that fits
    in 64 bits).  More generally, in any table that the step returns a
    category cell is the cash-net cell plus the insurance-net cell of its
    row, and both sub-columns are gone. *)
Theorem folding_sums_cash_and_insurance (df : DataFrame) :
  wf df →
  (has_net_columns REVENUE_GENERATING_CATEGORIES df →
   ∃ df', get_revenue_per_category df = Ok df' ∧
     length (rows df') = length (rows df) ∧
     (∀ i c, (i < length (rows df))%nat →
        c ∈ REVENUE_GENERATING_CATEGORIES →
        int64_column (cash_col c) df → int64_column (ins_col c) df →
        ∃ a b : Z,
          cell_at df i (cash_col c) = Some (Num a) ∧
          cell_at df i (ins_col c) = Some (Num b) ∧
          cell_at df' i c = Some (Num (wrap64 (a + b))) ∧
          (in_int64 (a + b) → cell_at df' i c = Some (Num (a + b)))) ∧
     (∀ c, c ∈ REVENUE_GENERATING_CATEGORIES →
        (cash_col c ∉ columns df') ∧ (ins_col c ∉ columns df'))) ∧
  (∀ df', get_revenue_per_category df = Ok df' →
     length (rows df') = length (rows df) ∧
     (∀ i c, (i < length (rows df))%nat →
        c ∈ REVENUE_GENERATING_CATEGORIES →
        ∃ x y v,
          cell_at df i (cash_col c) = Some x ∧
          cell_at df i (ins_col c) = Some y ∧
          add_cell x y = Ok v ∧ cell_at df' i c = Some v) ∧
     (∀ c, c ∈ REVENUE_GENERATING_CATEGORIES →
        (cash_col c ∉ columns df') ∧ (ins_col c ∉ columns df'))).
Proof.
  intros Hwf. split.
  - intros Hnet.
    destruct (get_revenue_over_numeric REVENUE_GENERATING_CATEGORIES df)
      as (df' & Hrun & Hrows & Hcells & Hgone);
      [done | apply sub_free_categories | done |].
    exists df'. split; [done|]. split; [done|]. split; [|done].
    intros i c Hi Hc _ _.
    destruct (Hcells i c Hi Hc) as (a & b & Ha & Hb & Hab).
    exists a, b. split; [done|]. split; [done|]. split; [done|].
    intros Hfit. by rewrite Hab, wrap64_id.
  - intros df' Hrun.
    destruct (get_revenue_over_columns _ _ _ Hwf sub_free_categories Hrun)
      as (_ & Hrows & _ & Hgone).
    split; [done|]. split; [|done].
    by apply (get_revenue_over_cells REVENUE_GENERATING_CATEGORIES df df' Hwf
                sub_free_categories).
Qed.

Lemma folding_sums_cash_and_insurance_witness :
  ∃ df', get_revenue_per_category two_row_selection = Ok df' ∧
    length (rows df') = length (rows two_row_selection) ∧
    (∀ i c, (i < length (rows two_row_selection))%nat →
       c ∈ REVENUE_GENERATING_CATEGORIES →
       int64_column (cash_col c) two_row_selection →
       int64_column (ins_col c) two_row_selection →
       ∃ a b : Z,
         cell_at two_row_selection i (cash_col c) = Some (Num a) ∧
         cell_at two_row_selection i (ins_col c) = Some (Num b) ∧
         cell_at df' i c = Some (Num (wrap64 (a + b))) ∧
         (in_int64 (a + b) → cell_at df' i c = Some (Num (a + b)))) ∧
    (∀ c, c ∈ REVENUE_GENERATING_CATEGORIES →
       (cash_col c ∉ columns df') ∧ (ins_col c ∉ columns df')).
Proof.
  apply (proj1 (folding_sums_cash_and_insurance two_row_selection
                  wf_two_row_selection)).
  apply net_columns_two_row_selection.
Defined.

(** C9: folding with the list as written, with "Lab" twice, returns the
    same table as folding with the six distinct categories: the second
    "Lab" iteration writes the cash-plus-insurance column that is already
    there, so on [int64] sub-columns a "Lab" cell is the sum of the two
    amounts as the column arithmetic computes it once (the 64-bit sum,
    which is the exact sum whenever that fits in 64 bits), not twice
    it. *)
Theorem repeated_lab_folds_once (df : DataFrame) :
  wf df → has_net_columns REVENUE_GENERATING_CATEGORIES df →
  get_revenue_per_category df
  = get_revenue_per_category_over DISTINCT_CATEGORIES df ∧
  ∃ df', get_revenue_per_category df = Ok df' ∧
    ∀ i, (i < length (rows df))%nat →
      int64_column "Lab_Net_Cash" df → int64_column "Lab_Net_Ins." df →
      ∃ a b : Z,
        cell_at df i "Lab_Net_Cash" = Some (Num a) ∧
        cell_at df i "Lab_Net_Ins." = Some (Num b) ∧
        cell_at df' i "Lab" = Some (Num (wrap64 (a + b))) ∧
        (in_int64 (a + b) → cell_at df' i "Lab" = Some (Num (a + b))).
Proof.
  intros Hwf Hnet. split.
  - apply (get_revenue_over_revisit
             ["Consultation"; "Lab"; "Radiology"; "Procedure"] "Lab"
             ["Consumable"; "Drug"] df Hwf).
    + unfold sub_free. compute_done.
    + compute_done.
  - destruct (get_revenue_over_numeric REVENUE_GENERATING_CATEGORIES df)
      as (df' & Hrun & _ & Hcells & _);
      [done | apply sub_free_categories | done |].
    exists df'. split; [done|]. intros i Hi _ _.
    destruct (Hcells i "Lab" Hi) as (a & b & Ha & Hb & Hab); [compute_done|].
    exists a, b. split; [done|]. split; [done|]. split; [done|].
    intros Hfit. by rewrite Hab, wrap64_id.
Qed.

Lemma repeated_lab_folds_once_witness :
  get_revenue_per_category two_row_selection
  = get_revenue_per_category_over DISTINCT_CATEGORIES two_row_selection ∧
  ∃ df', get_revenue_per_category two_row_selection = Ok df' ∧
    ∀ i, (i < length (rows two_row_selection))%nat →
      int64_column "Lab_Net_Cash" two_row_selection →
      int64_column "Lab_Net_Ins." two_row_selection →
      ∃ a b : Z,
        cell_at two_row_selection i "Lab_Net_Cash" = Some (Num a) ∧
        cell_at two_row_selection i "Lab_Net_Ins." = Some (Num b) ∧
        cell_at df' i "Lab" = Some (Num (wrap64 (a + b))) ∧
        (in_int64 (a + b) →
         cell_at df' i "Lab" = Some (Num (a + b))).
Proof.
  apply (repeated_lab_folds_once two_row_selection).
  - apply wf_two_row_selection.
  - apply net_columns_two_row_selection.
Defined.

(** ** Counting non-zero cells *)

Section counting.
Implicit Types (df : DataFrame) (keys : list string).

Lemma sumZ_cons (x : Z) (l : list Z) : sumZ (x :: l) = (x + sumZ l)%Z.
Proof. reflexivity. Qed.

Lemma sumZ_add {X : Type} (g h : X → Z) (l : list X) :
  sumZ ((λ x, g x + h x)%Z <$> l) = (sumZ (g <$> l) + sumZ (h <$> l))%Z.
Proof.
  induction l as [|x l IH]; [done|].
  rewrite !fmap_cons, !sumZ_cons, IH. lia.
Qed.

Lemma sumZ_zero {X : Type} (l : list X) : sumZ ((λ _, 0%Z) <$> l) = 0%Z.
Proof.
  induction l as [|x l IH]; [done|]. by rewrite fmap_cons, sumZ_cons, IH.
Qed.

(** Columns first or rows first, the total is the same. *)
Lemma sumZ_swap {X Y : Type} (f : X → Y → Z) (xs : list X) (ys : list Y) :
  sumZ ((λ y, sumZ ((λ x, f x y) <$> xs)) <$> ys)
  = sumZ ((λ x, sumZ ((λ y, f x y) <$> ys)) <$> xs).
Proof.
  induction ys as [|y ys IH].
  - simpl. by rewrite sumZ_zero.
  - rewrite fmap_cons, sumZ_cons, IH.
    by rewrite <- (sumZ_add (λ x, f x y)
                            (λ x, sumZ ((λ y, f x y) <$> ys))).
Qed.

Lemma fmap_lookup_total_seq {X Y : Type} `{Inhabited X} (g : X → Y)
    (l : list X) :
  (λ j, g (l !!! j)) <$> seq 0 (length l) = g <$> l.
Proof.
  induction l as [|x l IH]; [done|].
  cbn [length seq]. rewrite !fmap_cons. f_equal.
  rewrite <- fmap_S_seq, <- list_fmap_compose. by rewrite <- IH.
Qed.

(** The total of [frame.sum()] is the number of [True] cells. *)
Lemma sumZ_frame_sum (bf : Frame string bool) :
  Forall (λ r, length r = length (columns bf)) (rows bf) →
  sumZ (frame_sum bf) = sumZ ((λ r, sumZ (Z.b2z <$> r)) <$> rows bf).
Proof.
  intros Hrect. unfold frame_sum.
  rewrite (sumZ_swap (λ r p, Z.b2z (r !!! p))). f_equal.
  apply Forall_fmap_ext_1. eapply Forall_impl; [done|].
  intros r <-. simpl. f_equal. apply (fmap_lookup_total_seq Z.b2z).
Qed.

Lemma is_episode_position df r key p :
  get_loc key (columns df) = Some p → (p < length r)%nat →
  is_episode df r key = nonzero (r !!! p).
Proof.
  intros Hp Hlt. unfold is_episode, row_cell. rewrite Hp. simpl.
  by rewrite (list_lookup_lookup_total_lt r p).
Qed.

(** The source's count is the specification's. *)
Lemma count_nonzero_cells keys df :
  wf df → Forall (λ k, k ∈ columns df) keys →
  count_nonzero keys df = Ok (nonzero_cells keys df).
Proof.
  intros Hwf Hkeys. unfold count_nonzero.
  rewrite getitem_list_Ok by (done || apply Hwf). simpl. f_equal.
  rewrite sumZ_frame_sum.
  - unfold nonzero_cells. simpl. rewrite <- !list_fmap_compose. f_equal.
    apply Forall_fmap_ext_1, Forall_forall. intros r Hr. simpl. f_equal.
    rewrite <- !list_fmap_compose. apply Forall_fmap_ext_1.
    eapply Forall_impl; [done|]. intros k Hk. simpl.
    destruct (get_loc_elem_of _ _ Hk) as [p Hp]. rewrite Hp. simpl.
    f_equal. symmetry. apply is_episode_position; [done|].
    eapply wf_position; [done..|]. by eapply get_loc_lt.
  - simpl. apply Forall_forall.
    intros r' (r0 & -> & (r & -> & _)%list_elem_of_fmap)%list_elem_of_fmap.
    by rewrite !length_fmap.
Qed.

Lemma nonzero_cells_cons c keys df :
  nonzero_cells (c :: keys) df
  = (column_episodes c df + nonzero_cells keys df)%Z.
Proof.
  unfold nonzero_cells, column_episodes. simpl.
  by rewrite (sumZ_add (λ r, Z.b2z (is_episode df r c))).
Qed.

Lemma nonzero_cells_nil df : nonzero_cells [] df = 0%Z.
Proof. unfold nonzero_cells. simpl. apply sumZ_zero. Qed.

Lemma nonzero_cells_single c df :
  nonzero_cells [c] df = column_episodes c df.
Proof. rewrite nonzero_cells_cons, nonzero_cells_nil. apply Z.add_0_r. Qed.

Lemma column_episodes_nonneg c df : (0 ≤ column_episodes c df)%Z.
Proof.
  unfold column_episodes. induction (rows df) as [|r rs IH]; [done|].
  rewrite fmap_cons, sumZ_cons. destruct (is_episode df r c); simpl; lia.
Qed.

End counting.

(** ** Episodes per category *)

Section episodes.
Implicit Types (df : DataFrame) (d : list (string * cell)) (c k : string).

Lemma dict_set_keys k v d :
  (dict_set k v d).*1 = if decide (k ∈ d.*1) then d.*1 else d.*1 ++ [k].
Proof.
  induction d as [|[k' v'] d IH]; [done|].
  cbn [dict_set fst]. destruct (decide (k' = k)) as [->|Hne].
  - rewrite !fmap_cons. cbn [fst]. rewrite decide_True; [done|].
    apply elem_of_cons. auto.
  - rewrite !fmap_cons, IH. cbn [fst].
    destruct (decide (k ∈ d.*1)) as [Hin|Hin].
    + rewrite decide_True; [done|]. apply elem_of_cons. auto.
    + rewrite decide_False; [done|]. rewrite elem_of_cons.
      intros [?|?]; congruence.
Qed.

Lemma dict_set_values (P : string * cell → Prop) k v d :
  P (k, v) → Forall P d → Forall P (dict_set k v d).
Proof.
  intros Hkv. induction 1 as [|[k' v'] d Hk' Hd IH]; simpl.
  - by constructor.
  - destruct (decide (k' = k)); constructor; done.
Qed.

Lemma length_dict_set k v d : (length (dict_set k v d) ≤ S (length d))%nat.
Proof.
  rewrite <- (length_fmap fst (dict_set k v d)), dict_set_keys.
  destruct (decide _); rewrite ?length_app, length_fmap; simpl; lia.
Qed.

Lemma getitem_list_present {A : Type} `{Inhabited A} keys
    (df : Frame string A) sub :
  getitem_list keys df = Ok sub → Forall (λ k, k ∈ columns df) keys.
Proof.
  unfold getitem_list. destruct (decide _) as [Hnil|]; [|done].
  intros _. by apply filter_missing_nil.
Qed.

Lemma count_nonzero_present keys df n :
  count_nonzero keys df = Ok n → Forall (λ k, k ∈ columns df) keys.
Proof.
  unfold count_nonzero. intros (sub & Hsub & _)%bind_Ok.
  by eapply getitem_list_present.
Qed.

Lemma episodes_step_total df d c :
  wf df → c ∈ columns df →
  episodes_step df d c
  = Ok (if decide (column_episodes c df ≠ 0%Z)
        then dict_set c (Num (column_episodes c df)) d else d).
Proof.
  intros Hwf Hc. unfold episodes_step.
  rewrite count_nonzero_cells, nonzero_cells_single; [done..|].
  by apply Forall_singleton.
Qed.

Lemma episodes_step_present df d c d' :
  episodes_step df d c = Ok d' → c ∈ columns df.
Proof.
  unfold episodes_step. intros (n & Hn%count_nonzero_present & _)%bind_Ok.
  by apply Forall_cons in Hn as [? _].
Qed.

Lemma counted_step df done d c :
  counted df done d →
  counted df (done ++ [c])
    (if decide (column_episodes c df ≠ 0%Z)
     then dict_set c (Num (column_episodes c df)) d else d).
Proof.
  intros [Hnd Hdone Hval Hlen]. destruct (decide _) as [Hne|_]; split.
  - rewrite dict_set_keys. destruct (decide _) as [|Hnew]; [done|].
    apply NoDup_app. split; [done|]. split; [|apply NoDup_singleton].
    by intros k Hk ->%list_elem_of_singleton.
  - intros k. rewrite dict_set_keys, elem_of_app.
    destruct (decide _); [auto|].
    rewrite elem_of_app. intros [?|?]; auto.
  - by apply dict_set_values.
  - pose proof (length_dict_set c (Num (column_episodes c df)) d).
    rewrite length_app. simpl. lia.
  - done.
  - intros k Hk. rewrite elem_of_app. auto.
  - done.
  - rewrite length_app. simpl. lia.
Qed.

Lemma foldM_counted df todo : ∀ done d d',
  wf df → counted df done d →
  foldM (episodes_step df) d todo = Ok d' → counted df (done ++ todo) d'.
Proof.
  induction todo as [|c todo IH]; intros done d d' Hwf Hd Hrun.
  - injection Hrun as <-. by rewrite app_nil_r.
  - simpl in Hrun. apply bind_Ok in Hrun as (d1 & Hstep & Hrun).
    rewrite cons_middle, app_assoc. eapply IH; [done| |done].
    rewrite episodes_step_total in Hstep
      by (done || by eapply episodes_step_present).
    injection Hstep as <-. by apply counted_step.
Qed.

Lemma foldM_counted_total df todo : ∀ d,
  wf df → Forall (λ k, k ∈ columns df) todo →
  ∃ d', foldM (episodes_step df) d todo = Ok d'.
Proof.
  induction todo as [|c todo IH]; intros d Hwf Htodo; [by eexists|].
  apply Forall_cons in Htodo as [Hc Htodo]. simpl.
  rewrite episodes_step_total by done. simpl. by apply IH.
Qed.

Lemma counted_nil df : counted df [] [].
Proof. split; simpl; [constructor | by intros k ?%elem_of_nil | done..]. Qed.

(** What [calculate_episodes_per_category] returns, when it returns. *)
Lemma episodes_per_category_counted df pie :
  wf df → calculate_episodes_per_category df = Ok pie →
  ∃ d, counted df REVENUE_GENERATING_CATEGORIES d ∧
       labels pie = d.*1 ∧ values pie = d.*2.
Proof.
  intros Hwf (d & Hd & [= <-])%bind_Ok. exists d. split; [|done].
  by apply (foldM_counted df REVENUE_GENERATING_CATEGORIES [] []);
    [| apply counted_nil |].
Qed.

End episodes.

(** ** The pipeline returns normalized tables *)

Section pipeline.
Implicit Types (df : DataFrame) (raw : RawTable).

Lemma get_revenue_over_kept categories df df' k :
  wf df → sub_free categories →
  get_revenue_per_category_over categories df = Ok df' →
  k ∈ columns df' ↔
  (k ∈ columns df ∨ k ∈ categories) ∧
  k ∉ categories ≫= (λ c, [cash_col c; ins_col c]).
Proof.
  intros Hwf Hfree Hrun.
  destruct (get_revenue_over_folded _ _ _ Hwf Hfree Hrun) as (st & Hst & ->).
  by rewrite columns_dropped, (folded_columns _ _ _ Hst),
    (folded_remove _ _ _ Hst).
Qed.

Lemma required_cols_NoDup df : NoDup (columns df) → NoDup (required_cols df).
Proof.
  intros Hnd. unfold required_cols. apply NoDup_app. split; [|split].
  - by apply NoDup_filter.
  - intros k [Hnet _]%list_elem_of_filter Hmeta.
    assert (Forall (λ m, ¬ contains "_Net_" m) METADATA_COLUMNS) as Hno
      by compute_done.
    rewrite Forall_forall in Hno. by apply (Hno k).
  - compute_done.
Qed.

Lemma lookup_total_get_loc (cols : list string) k :
  k ∈ cols → cols !!! default 0%nat (get_loc k cols) = k.
Proof.
  intros (p & Hp)%get_loc_elem_of. rewrite Hp. simpl.
  apply list_lookup_total_correct. by apply get_loc_Some.
Qed.

(** The selection of present, distinct keys has exactly these labels. *)
Lemma getitem_list_selected keys df sel :
  wf df → NoDup keys → getitem_list keys df = Ok sel →
  wf sel ∧ columns sel = keys ∧ length (rows sel) = length (rows df).
Proof.
  intros Hwf Hkeys Hsel.
  pose proof (getitem_list_present _ _ _ Hsel) as Hpres.
  rewrite getitem_list_Ok in Hsel by (done || apply Hwf).
  injection Hsel as <-. rewrite Forall_forall in Hpres.
  split; [|split].
  - apply wf_take_cols; [done| |].
    + apply NoDup_fmap_2_strong; [|done]. intros k1 k2 H1 H2 Heq.
      by rewrite <- (lookup_total_get_loc (columns df) k1),
        <- (lookup_total_get_loc (columns df) k2), Heq by auto.
    + apply Forall_forall.
      intros p (k & -> & (q & Hq)%Hpres%get_loc_elem_of)%list_elem_of_fmap.
      rewrite Hq. simpl. by eapply get_loc_lt.
  - simpl. rewrite <- list_fmap_compose. rewrite <- (list_fmap_id keys) at 2.
    apply Forall_fmap_ext_1, Forall_forall. intros k Hk. simpl.
    apply lookup_total_get_loc. auto.
  - apply length_rows_take.
Qed.

Lemma focus_on_specific_columns_Ok df df' :
  wf df → focus_on_specific_columns df = Ok df' →
  wf df' ∧ columns df' = required_cols df ∧
  length (rows df') = length (rows df).
Proof.
  intros Hwf Hrun. unfold focus_on_specific_columns in Hrun.
  apply bind_Ok in Hrun as (sel & Hsel & Hrun).
  apply bind_Ok in Hrun as (dates & Hdates & Hrun).
  apply bind_Ok in Hrun as (formatted & Hfmt & [= <-]).
  destruct (getitem_list_selected _ _ _ Hwf
              (required_cols_NoDup df (proj1 Hwf)) Hsel)
    as (Hwfs & Hcols & Hrows).
  assert (length formatted = length (rows sel)) as Hlen.
  { by rewrite (mapM_Ok_length _ _ _ Hfmt), (getitem_length _ _ _ Hdates). }
  split; [by apply wf_setitem|]. split.
  - unfold setitem.
    apply getitem_Ok in Hdates as (p & -> & _). simpl. done.
  - by rewrite length_rows_setitem.
Qed.

(** A table that [get_df_from_excel] returns is normalized. *)
Lemma get_df_from_excel_normalized raw df :
  wf (rename_cols raw) → get_df_from_excel raw = Ok df → normalized df.
Proof.
  intros Hwf Hrun. unfold get_df_from_excel in Hrun.
  apply bind_Ok in Hrun as (sel & Hsel & Hrun).
  destruct (focus_on_specific_columns_Ok _ _ Hwf Hsel) as (Hwfs & Hcols & _).
  destruct (get_revenue_over_columns _ _ _ Hwfs sub_free_categories Hrun)
    as (Hwf' & _ & _ & _).
  split; [done|]. apply Forall_forall. intros k Hk.
  apply (get_revenue_over_kept _ _ _ k Hwfs sub_free_categories Hrun).
  assert (Forall (λ k, k ∉ REVENUE_GENERATING_CATEGORIES
                         ≫= (λ c, [cash_col c; ins_col c]))
                 (REVENUE_GENERATING_CATEGORIES ++ METADATA_COLUMNS)) as Hno
    by compute_done.
  rewrite Forall_forall in Hno. split; [|by apply Hno].
  apply elem_of_app in Hk as [Hk|Hk]; [by right|]. left.
  rewrite Hcols. unfold required_cols. apply elem_of_app. by right.
Qed.

End pipeline.

(** ** The aggregates of the report *)

Lemma normalized_sample_table : normalized sample_table.
Proof. split; [split|]; compute_done. Defined.

(** C2: on a normalized table the episode indicator is the number of
    non-zero cells over all rows and over the seven entries of the category
    list as written; "Lab" is listed twice, so a non-zero "Lab" cell is
    counted twice: the count is the one over the six distinct categories
    plus the number of non-zero "Lab" cells. *)
Theorem episode_count_over_seven_entries (df : DataFrame) :
  normalized df →
  calculate_number_of_episodes df
  = Ok (mkIndicator (Num (nonzero_cells REVENUE_GENERATING_CATEGORIES df))
                    "Revenue Generating<br>Episodes") ∧
  nonzero_cells REVENUE_GENERATING_CATEGORIES df
  = (nonzero_cells DISTINCT_CATEGORIES df + column_episodes "Lab" df)%Z.
Proof.
  intros [Hwf Hcols]. apply Forall_app in Hcols as [Hcats _]. split.
  - unfold calculate_number_of_episodes.
    by rewrite count_nonzero_cells.
  - unfold REVENUE_GENERATING_CATEGORIES, DISTINCT_CATEGORIES.
    rewrite !nonzero_cells_cons, nonzero_cells_nil. lia.
Qed.

Lemma episode_count_over_seven_entries_witness :
  calculate_number_of_episodes sample_table
  = Ok (mkIndicator
          (Num (nonzero_cells REVENUE_GENERATING_CATEGORIES sample_table))
          "Revenue Generating<br>Episodes") ∧
  nonzero_cells REVENUE_GENERATING_CATEGORIES sample_table
  = (nonzero_cells DISTINCT_CATEGORIES sample_table
     + column_episodes "Lab" sample_table)%Z.
Proof.
  apply (episode_count_over_seven_entries sample_table).
  apply normalized_sample_table.
Defined.

(** C8: the patient indicator is the number of rows of the table, and
    a table with the same rows in another order has the same indicator. *)
Theorem patient_count_is_row_count (df : DataFrame) :
  calculate_number_of_patients df
  = mkIndicator (Num (Z.of_nat (length (rows df)))) "Number of Patients" ∧
  ∀ df' : DataFrame,
    rows df' ≡ₚ rows df →
    calculate_number_of_patients df' = calculate_number_of_patients df.
Proof.
  split; [done|]. intros df' Hperm. unfold calculate_number_of_patients.
  by rewrite (Permutation_length Hperm).
Qed.

Lemma patient_count_is_row_count_witness :
  calculate_number_of_patients
    (mkFrame (columns sample_table) (reverse (rows sample_table)))
  = calculate_number_of_patients sample_table.
Proof.
  apply (proj2 (patient_count_is_row_count sample_table)
           (mkFrame (columns sample_table) (reverse (rows sample_table)))).
  simpl. apply reverse_Permutation.
Defined.

(** C6: on a normalized table [calculate_episodes_per_category] returns a
    chart none of whose labels has a zero count of non-zero entries; the
    labels are distinct entries of the category list, at most seven. *)
Theorem episodes_per_category_skips_zero (df : DataFrame) :
  normalized df →
  ∃ pie, calculate_episodes_per_category df = Ok pie ∧
    (∀ l, l ∈ labels pie → column_episodes l df ≠ 0%Z) ∧
    NoDup (labels pie) ∧
    labels pie ⊆ REVENUE_GENERATING_CATEGORIES ∧
    (0 ≤ length (labels pie) ≤ 7)%nat.
Proof.
  intros [Hwf Hcols]. apply Forall_app in Hcols as [Hcats _].
  destruct (foldM_counted_total df REVENUE_GENERATING_CATEGORIES [] Hwf Hcats)
    as [d Hd].
  assert (calculate_episodes_per_category df
          = Ok (mkPieChart d.*1 d.*2 "label+value")) as Hpie.
  { unfold calculate_episodes_per_category. by rewrite Hd. }
  destruct (episodes_per_category_counted df _ Hwf Hpie)
    as (d' & [Hnd Hdone Hval Hlen] & Hl & _).
  simpl in Hl. eexists. split; [done|]. simpl. rewrite Hl.
  repeat split; try done.
  - intros l ((k & v) & -> & Hkv)%list_elem_of_fmap.
    rewrite Forall_forall in Hval. by destruct (Hval _ Hkv).
  - lia.
  - rewrite length_fmap. simpl in Hlen. lia.
Qed.

Lemma episodes_per_category_skips_zero_witness :
  ∃ pie, calculate_episodes_per_category sample_table = Ok pie ∧
    (∀ l, l ∈ labels pie → column_episodes l sample_table ≠ 0%Z) ∧
    NoDup (labels pie) ∧
    labels pie ⊆ REVENUE_GENERATING_CATEGORIES ∧
    (0 ≤ length (labels pie) ≤ 7)%nat.
Proof.
  apply (episodes_per_category_skips_zero sample_table).
  apply normalized_sample_table.
Defined.

(** ** The pie charts *)

Section pies.
Implicit Types (df : DataFrame) (pie : PieChart).

Lemma new_vs_old_reg_Ok df pie :
  calculate_new_vs_old_reg df = Ok pie →
  ∃ new_reg old_reg,
    column_total "New Reg." df = Ok new_reg ∧
    column_total "Old Reg." df = Ok old_reg ∧
    labels pie = ["New"; "Old"] ∧ values pie = [new_reg; old_reg].
Proof.
  unfold calculate_new_vs_old_reg, column_total. intros Hpie. inv_ok.
  subst pie. repeat match goal with H : _ = Ok _ |- _ => rewrite H end.
  eauto 10.
Qed.

Lemma insurance_vs_non_insurance_Ok df pie :
  calculate_insurance_vs_non_insurance df = Ok pie →
  ∃ insurance total non_insurance,
    column_total "Ins." df = Ok insurance ∧
    column_total "Net Revenue" df = Ok total ∧
    sub_cell total insurance = Ok non_insurance ∧
    labels pie = ["Non Ins"; "Ins"] ∧
    values pie = [non_insurance; insurance].
Proof.
  unfold calculate_insurance_vs_non_insurance, column_total.
  intros Hpie. inv_ok. subst pie.
  repeat match goal with H : getitem _ _ = Ok _ |- _ => rewrite H end.
  simpl. eauto 10.
Qed.

Lemma groupby_sum_Ok key df index summed :
  groupby_sum key df = Ok (index, summed) →
  ∃ p keys,
    get_loc key (columns df) = Some p ∧
    mapM as_str (column_at p df) = Ok keys ∧ index = sort_unique keys ∧
    columns summed
    = (λ q, columns df !!! q)
        <$> filter (λ q, q ≠ p) (seq 0 (length (columns df))) ∧
    Forall2
      (λ k row,
         Forall2 (λ q v, sum_series ((λ r, r !!! q) <$> group_rows p k df)
                         = Ok v)
                 (filter (λ q, q ≠ p) (seq 0 (length (columns df)))) row)
      index (rows summed).
Proof.
  unfold groupby_sum. destruct (get_loc key (columns df)) as [p|]; [|done].
  intros Hrun. apply bind_Ok in Hrun as (keys & Hkeys & Hrun).
  apply bind_Ok in Hrun as (srows & Hrows & [= <- <-]).
  exists p, keys. repeat split; try done. simpl.
  apply mapM_Ok in Hrows. eapply Forall2_impl; [done|].
  intros k row Hrow. by apply mapM_Ok.
Qed.

Lemma mapM_as_str_Ok (s : Series) keys :
  mapM as_str s = Ok keys → s = Str <$> keys.
Proof.
  intros Hk%mapM_Ok. induction Hk as [|c k s keys Hc _ IH]; [done|].
  destruct c; [done| |done]. injection Hc as <-. by rewrite fmap_cons, IH.
Qed.

(** The slices of a returned speciality chart: the sorted distinct names
    of the "Speciality" column, each with the net revenue of its rows. *)
Lemma revenue_per_speciality_Ok df pie :
  wf df → calculate_revenue_per_speciality df = Ok pie →
  ∃ keys,
    getitem "Speciality" df = Ok (Str <$> keys) ∧
    labels pie = take_chars 6 <$> sort_unique keys ∧
    Forall2 (λ k v, group_total df k = Ok v) (sort_unique keys) (values pie).
Proof.
  intros [Hnd _]. unfold calculate_revenue_per_speciality.
  intros ([index summed] & Hgroup & Hpie)%bind_Ok.
  apply bind_Ok in Hpie as (revenue & Hrev & [= <-]). simpl in Hrev.
  apply groupby_sum_Ok in Hgroup
    as (p & keys & Hp & Hkeys%mapM_as_str_Ok & -> & Hcols & Hsums).
  apply getitem_Ok in Hrev as (j & Hj & ->). rewrite Hcols in Hj.
  apply get_loc_Some, list_lookup_fmap_Some in Hj as (q & Hq & Hjq).
  assert (get_loc "Net Revenue" (columns df) = Some q) as Hloc.
  { apply get_loc_NoDup; [done|]. rewrite Hq.
    apply list_lookup_lookup_total_lt.
    apply list_elem_of_lookup_2, list_elem_of_filter in Hjq as [_ Hin].
    apply elem_of_seq in Hin. lia. }
  exists keys. split; [|split; [done|]].
  { unfold getitem. by rewrite Hp, Hkeys. }
  simpl. unfold column_at. apply Forall2_fmap_r.
  eapply Forall2_impl; [done|]. intros k row Hrow. simpl.
  eapply Forall2_lookup_l in Hrow as (v & Hv & Hsum); [|done].
  unfold group_total. rewrite Hp, Hloc.
  by rewrite (list_lookup_total_correct _ _ _ Hv).
Qed.

Lemma episodes_per_category_Ok df pie :
  wf df → calculate_episodes_per_category df = Ok pie →
  Forall2 (λ l v, v = Num (column_episodes l df)) (labels pie) (values pie).
Proof.
  intros Hwf Hpie.
  destruct (episodes_per_category_counted df pie Hwf Hpie)
    as (d & Hd & -> & ->).
  apply Forall2_fmap. apply Forall_Forall2_diag.
  eapply Forall_impl; [apply Hd|]. by intros kv [? _].
Qed.

End pies.

(** C10: whenever one of the four pie-building operations returns a chart,
    the chart has as many values as labels and the value at a position is
    the aggregate of the label at that position: the sums of the "New
    Reg." and "Old Reg." columns under "New" and "Old"; the net revenue
    less the insurance amount under "Non Ins" and the insurance amount
    under "Ins"; for the sorted distinct names of the "Speciality" column,
    the net revenue of the rows of a name under the first six characters
    of that name; the count of non-zero entries of a category under its
    name.  The registration and the insurance chart have two slices
    whatever their values. *)
Theorem pie_values_match_labels (df : DataFrame) :
  wf df →
  (∀ pie, calculate_new_vs_old_reg df = Ok pie →
     ∃ new_reg old_reg,
       column_total "New Reg." df = Ok new_reg ∧
       column_total "Old Reg." df = Ok old_reg ∧
       labels pie = ["New"; "Old"] ∧ values pie = [new_reg; old_reg]) ∧
  (∀ pie, calculate_insurance_vs_non_insurance df = Ok pie →
     ∃ insurance total non_insurance,
       column_total "Ins." df = Ok insurance ∧
       column_total "Net Revenue" df = Ok total ∧
       sub_cell total insurance = Ok non_insurance ∧
       labels pie = ["Non Ins"; "Ins"] ∧
       values pie = [non_insurance; insurance]) ∧
  (∀ pie, calculate_revenue_per_speciality df = Ok pie →
     ∃ keys,
       getitem "Speciality" df = Ok (Str <$> keys) ∧
       labels pie = take_chars 6 <$> sort_unique keys ∧
       Forall2 (λ k v, group_total df k = Ok v)
               (sort_unique keys) (values pie)) ∧
  (∀ pie, calculate_episodes_per_category df = Ok pie →
     Forall2 (λ l v, v = Num (column_episodes l df))
             (labels pie) (values pie)) ∧
  (∀ pie,
     calculate_new_vs_old_reg df = Ok pie ∨
     calculate_insurance_vs_non_insurance df = Ok pie ∨
     calculate_revenue_per_speciality df = Ok pie ∨
     calculate_episodes_per_category df = Ok pie →
     length (labels pie) = length (values pie)).
Proof.
  intros Hwf. repeat split.
  - apply new_vs_old_reg_Ok.
  - apply insurance_vs_non_insurance_Ok.
  - intros pie. by apply revenue_per_speciality_Ok.
  - intros pie. by apply episodes_per_category_Ok.
  - intros pie [Hpie|[Hpie|[Hpie|Hpie]]].
    + apply new_vs_old_reg_Ok in Hpie as (? & ? & _ & _ & -> & ->). done.
    + apply insurance_vs_non_insurance_Ok in Hpie
        as (? & ? & ? & _ & _ & _ & -> & ->). done.
    + apply revenue_per_speciality_Ok in Hpie as (keys & _ & -> & Hv);
        [|done].
      rewrite length_fmap. by eapply Forall2_length.
    + apply episodes_per_category_Ok in Hpie; [|done].
      by eapply Forall2_length.
Qed.

Lemma pie_values_match_labels_witness :
  (∃ pie, calculate_new_vs_old_reg sample_table = Ok pie ∧
          length (labels pie) = length (values pie)) ∧
  (∃ pie, calculate_insurance_vs_non_insurance sample_table = Ok pie ∧
          length (labels pie) = length (values pie)) ∧
  (∃ pie, calculate_revenue_per_speciality sample_table = Ok pie ∧
          length (labels pie) = length (values pie)) ∧
  (∃ pie, calculate_episodes_per_category sample_table = Ok pie ∧
          length (labels pie) = length (values pie)).
Proof.
  pose proof (pie_values_match_labels sample_table
                (proj1 normalized_sample_table)) as (_ & _ & _ & _ & Hlen).
  repeat split; eexists; (split; [vm_compute; reflexivity|]); apply Hlen.
  - left. vm_compute. reflexivity.
  - right. left. vm_compute. reflexivity.
  - right. right. left. vm_compute. reflexivity.
  - right. right. right. vm_compute. reflexivity.
Defined.

(** ** The caption (C5) *)

Lemma normalized_empty_table : normalized empty_table.
Proof. split; [split|]; compute_done. Defined.

(** C5: on a normalized table without rows [make_plot] raises, at the
    lookup of the caption; on a normalized table with a first row the
    lookup returns that row's "(CVR) Date" cell, and it is the caption of
    every chart that [make_plot] returns. *)
Theorem caption_is_first_visit_date (df : DataFrame) :
  normalized df →
  (rows df = [] →
     caption df = Raise IndexError ∧ make_plot df = Raise IndexError) ∧
  (∀ r rs, rows df = r :: rs →
     ∃ date, row_cell df r "(CVR) Date" = Some date ∧
       caption df = Ok date ∧
       ∀ fig, make_plot df = Ok fig → x_title fig = date).
Proof.
  intros [Hwf Hcols]. rewrite Forall_forall in Hcols.
  destruct (get_loc_elem_of "(CVR) Date" (columns df)) as [p Hp].
  { apply Hcols. compute_done. }
  assert (caption df = iloc 0 (column_at p df)) as Hcap.
  { unfold caption, getitem. by rewrite Hp. }
  split.
  - intros Hrows. assert (caption df = Raise IndexError) as Hraise.
    { rewrite Hcap. unfold column_at. by rewrite Hrows. }
    split; [done|]. unfold make_plot. by rewrite Hraise.
  - intros r rs Hrows. exists (r !!! p).
    assert (caption df = Ok (r !!! p)) as Hok.
    { rewrite Hcap. unfold column_at. by rewrite Hrows. }
    split; [|split; [done|]].
    + unfold row_cell. rewrite Hp. simpl.
      apply list_lookup_lookup_total_lt.
      eapply wf_position; [done | | by eapply get_loc_lt].
      rewrite Hrows. apply elem_of_cons. auto.
    + intros fig. unfold make_plot. rewrite Hok.
      intros Hfig. cbn [mbind result_bind] in Hfig. inv_ok. by subst fig.
Qed.

Lemma caption_is_first_visit_date_witness :
  make_plot empty_table = Raise IndexError ∧
  caption sample_table = Ok (Str "2024-03-07") ∧
  ∃ fig, make_plot sample_table = Ok fig ∧ x_title fig = Str "2024-03-07".
Proof.
  destruct (caption_is_first_visit_date empty_table normalized_empty_table)
    as [Hempty _].
  destruct (caption_is_first_visit_date sample_table normalized_sample_table)
    as [_ Hfirst].
  split; [apply Hempty; reflexivity|].
  destruct (Hfirst _ _ eq_refl) as (date & Hcell & Hcap & Hfig).
  vm_compute in Hcell. injection Hcell as <-.
  split; [exact Hcap|].
  eexists. split; [vm_compute; reflexivity|].
  apply Hfig. vm_compute. reflexivity.
Defined.

(** ** Missing metadata (C4) *)

(** C4: when a metadata field that [focus_on_specific_columns] requires,
    such as "Speciality", is not among the flattened column names, the
    column selection raises [KeyError] with that field among the missing
    labels; the error leaves [focus_on_specific_columns] and
    [get_df_from_excel], so whatever is to be computed from the table is
    not run, and the upload handler shows the error. *)
Theorem missing_metadata_fails_in_selection (raw : RawTable)
    (field : string) :
  field ∈ METADATA_COLUMNS → field ∉ columns (rename_cols raw) →
  ∃ missing,
    field ∈ missing ∧
    getitem_list (required_cols (rename_cols raw)) (rename_cols raw)
    = Raise (KeyError missing) ∧
    focus_on_specific_columns (rename_cols raw) = Raise (KeyError missing) ∧
    get_df_from_excel raw = Raise (KeyError missing) ∧
    (∀ (B : Type) (report : DataFrame → result B),
       get_df_from_excel raw ≫= report = Raise (KeyError missing)) ∧
    handle_upload raw = ErrorShown (KeyError missing).
Proof.
  intros Hfield Hmiss.
  assert (field ∈ required_cols (rename_cols raw)) as Hreq.
  { unfold required_cols. apply elem_of_app. by right. }
  pose proof (getitem_list_missing _ _ _ Hreq Hmiss) as Hsel.
  eexists. split; [|split; [exact Hsel|]].
  { apply list_elem_of_filter. done. }
  assert (focus_on_specific_columns (rename_cols raw) = Raise (KeyError
    (filter (λ k, k ∉ columns (rename_cols raw))
            (required_cols (rename_cols raw))))) as Hfocus.
  { unfold focus_on_specific_columns. by rewrite Hsel. }
  assert (get_df_from_excel raw = Raise (KeyError
    (filter (λ k, k ∉ columns (rename_cols raw))
            (required_cols (rename_cols raw))))) as Hget.
  { unfold get_df_from_excel. by rewrite Hfocus. }
  split; [done|]. split; [done|]. split.
  - intros B report. by rewrite Hget.
  - unfold handle_upload. by rewrite Hget.
Qed.

Lemma missing_metadata_fails_in_selection_witness :
  get_df_from_excel sheet_without_speciality
  = Raise (KeyError ["Speciality"]) ∧
  handle_upload sheet_without_speciality
  = ErrorShown (KeyError ["Speciality"]).
Proof.
  destruct (missing_metadata_fails_in_selection sheet_without_speciality
              "Speciality")
    as (missing & _ & Hsel & _ & Hget & _ & Hshow).
  - compute_done.
  - compute_done.
  - vm_compute in Hsel. injection Hsel as <-. by split.
Defined.

(** ** The specification's example (C1) *)

Example pipeline_two_row_sheet :
  get_df_from_excel two_row_sheet = Ok sample_table.
Proof. vm_compute. reflexivity. Qed.

(** The episode indicator of the example: the consultation once and the
    lab test twice, "Lab" being listed twice. *)
Example two_row_example_episodes :
  calculate_number_of_episodes sample_table
  = Ok (mkIndicator (Num 3) "Revenue Generating<br>Episodes").
Proof. vm_compute. reflexivity. Qed.

(** C1, as stated, does not hold of the code: the speciality label is cut
    to six characters, "Cardio", not "Cardiol" (and the episode indicator
    is 3, not 2). *)
Lemma two_row_example_not_as_stated : ¬ example_as_stated sample_table.
Proof.
  intros (_ & _ & _ & _ & (pie & Hpie & Hzip) & _).
  vm_compute in Hpie. injection Hpie as <-. vm_compute in Hzip.
  discriminate Hzip.
Qed.

(** C1, amended: for the two-row table of the example, whatever its policy,
    doctor and date fields, the patient indicator is 2, the net revenue
    150, the insurance chart has 110 under "Non Ins" and 40 under "Ins",
    the speciality chart has the one slice "Cardio" of 150, and the
    registration chart has 1 under "New" and 1 under "Old". *)
Theorem two_row_example_aggregates
    (policy_a doctor_a date_a policy_b doctor_b date_b : string) :
  let df := two_row_table policy_a doctor_a date_a policy_b doctor_b date_b in
  calculate_number_of_patients df = mkIndicator (Num 2) "Number of Patients" ∧
  calculate_net_revnenue df = Ok (mkIndicator (Num 150) "Net Revenue") ∧
  calculate_insurance_vs_non_insurance df
  = Ok (mkPieChart ["Non Ins"; "Ins"] [Num 110; Num 40] "label+value") ∧
  calculate_revenue_per_speciality df
  = Ok (mkPieChart ["Cardio"] [Num 150] "label+value") ∧
  calculate_new_vs_old_reg df
  = Ok (mkPieChart ["New"; "Old"] [Num 1; Num 1] "label+value").
Proof. intros df. repeat split; vm_compute; reflexivity. Qed.

(** * Further properties of the code *)

(** ** Sums of numeric columns *)

Section numeric_sums.
Implicit Types (s : Series) (df : DataFrame).

Lemma is_int64_is_num s : forallb is_int64 s → forallb is_num s.
Proof.
  induction s as [|c s IH]; [done|]. simpl.
  intros [Hc Hs]%andb_True. apply andb_True. split; [|by apply IH].
  by destruct c.
Qed.

(** Adding numbers to a number gives the 64-bit value of the exact sum. *)
Lemma foldM_add_numeric s : ∀ acc : Z,
  forallb is_num s →
  ∃ z, foldM add_cell (Num acc) s = Ok (Num z) ∧
       wrap64 z = wrap64 (acc + amount_total s) ∧
       (in_int64 acc → in_int64 z).
Proof.
  unfold amount_total.
  induction s as [|c s IH]; intros acc Hs.
  - exists acc. repeat split; [|done]. f_equal. simpl. lia.
  - simpl in Hs. apply andb_True in Hs as [Hc Hs].
    destruct c as [x| |]; [|done..].
    change (foldM add_cell (Num acc) (Num x :: s))
      with (foldM add_cell (Num (wrap64 (acc + x))) s).
    destruct (IH (wrap64 (acc + x)) Hs) as (z & Hz & Hwrap & Hfit).
    exists z. split; [done|]. split.
    + rewrite Hwrap, wrap64_add_l, fmap_cons, sumZ_cons. cbn [num_of].
      f_equal. lia.
    + intros _. apply Hfit, in_int64_wrap64.
Qed.

Lemma sum_series_numeric s :
  forallb is_num s →
  ∃ z, sum_series s = Ok (Num z) ∧ wrap64 z = wrap64 (amount_total s) ∧
       (forallb is_int64 s → in_int64 z).
Proof.
  destruct s as [|c s]; [by exists 0%Z|]. intros Hs. simpl in Hs.
  apply andb_True in Hs as [Hc Hs]. destruct c as [x| |]; [|done..].
  change (sum_series (Num x :: s)) with (foldM add_cell (Num x) s).
  destruct (foldM_add_numeric s x Hs) as (z & Hz & Hwrap & Hfit).
  exists z. split; [done|]. split.
  - unfold amount_total. by rewrite fmap_cons, sumZ_cons.
  - simpl. intros [Hx _]%andb_True. by apply Hfit.
Qed.

(** The sum of an [int64] column is the 64-bit value of its total. *)
Lemma sum_series_int64 s :
  forallb is_int64 s → sum_series s = Ok (Num (wrap64 (amount_total s))).
Proof.
  intros Hs.
  destruct (sum_series_numeric s (is_int64_is_num s Hs))
    as (z & -> & Hwrap & Hfit).
  by rewrite <- Hwrap, wrap64_id by auto.
Qed.

Lemma numeric_column_Ok key df :
  numeric_column key df →
  ∃ p, get_loc key (columns df) = Some p ∧
       getitem key df = Ok (column_at p df) ∧
       forallb is_num (column_at p df).
Proof.
  unfold numeric_column, getitem.
  destruct (get_loc key (columns df)) as [p|]; [|done]. eauto.
Qed.

Lemma int64_column_Ok key df :
  int64_column key df →
  ∃ p, get_loc key (columns df) = Some p ∧
       getitem key df = Ok (column_at p df) ∧
       forallb is_int64 (column_at p df).
Proof.
  unfold int64_column, getitem.
  destruct (get_loc key (columns df)) as [p|]; [|done]. eauto.
Qed.

Lemma sumZ_Permutation (l1 l2 : list Z) : l1 ≡ₚ l2 → sumZ l1 = sumZ l2.
Proof.
  induction 1 as [|x l1 l2 _ IH|x y l|l1 l2 l3 _ IH1 _ IH2];
    rewrite ?sumZ_cons; lia.
Qed.

Lemma forallb_Permutation {X : Type} (f : X → bool) (l1 l2 : list X) :
  l1 ≡ₚ l2 → forallb f l1 = forallb f l2.
Proof.
  induction 1 as [|x l1 l2 _ IH|x y l|l1 l2 l3 _ IH1 _ IH2]; simpl;
    [done | by rewrite IH | by destruct (f x), (f y) | congruence].
Qed.

Lemma column_at_Permutation p (df df' : DataFrame) :
  rows df' ≡ₚ rows df → column_at p df' ≡ₚ column_at p df.
Proof. intros Hperm. unfold column_at. by rewrite Hperm. Qed.

End numeric_sums.

(** X1: on a table whose "Net Revenue" column is an [int64] column the
    revenue indicator is the 64-bit value of the total of that column,
    and a table with the same columns and the same rows in another order
    has the same indicator; without the column the operation raises
    [KeyError]. *)
Theorem net_revenue_is_column_total (df : DataFrame) :
  (int64_column "Net Revenue" df →
   ∃ s, getitem "Net Revenue" df = Ok s ∧
     calculate_net_revnenue df
     = Ok (mkIndicator (Num (wrap64 (amount_total s))) "Net Revenue") ∧
     ∀ df' : DataFrame,
       columns df' = columns df → rows df' ≡ₚ rows df →
       calculate_net_revnenue df' = calculate_net_revnenue df) ∧
  ("Net Revenue" ∉ columns df →
   calculate_net_revnenue df = Raise (KeyError ["Net Revenue"])).
Proof.
  split.
  - intros (p & Hp & Hget & Hnum)%int64_column_Ok.
    assert (∀ d : DataFrame, columns d = columns df → rows d ≡ₚ rows df →
      calculate_net_revnenue d
      = Ok (mkIndicator (Num (wrap64 (amount_total (column_at p df))))
                        "Net Revenue"))
      as Hall.
    { intros d Hcols Hrows. unfold calculate_net_revnenue, getitem.
      rewrite Hcols, Hp. simpl.
      pose proof (column_at_Permutation p df d Hrows) as Hperm.
      rewrite sum_series_int64
        by by rewrite (forallb_Permutation _ _ _ Hperm).
      simpl. unfold amount_total.
      by rewrite (sumZ_Permutation _ (num_of <$> column_at p df))
        by by rewrite Hperm. }
    exists (column_at p df). split; [done|]. split; [by apply Hall|].
    intros df' Hcols Hrows. by rewrite (Hall df'), (Hall df).
  - intros Hmiss. unfold calculate_net_revnenue.
    by rewrite getitem_missing.
Qed.

Lemma net_revenue_is_column_total_witness :
  calculate_net_revnenue sample_table
  = Ok (mkIndicator (Num 150) "Net Revenue") ∧
  calculate_net_revnenue
    (mkFrame (columns sample_table) (reverse (rows sample_table)))
  = calculate_net_revnenue sample_table ∧
  calculate_net_revnenue two_row_selection_without_revenue
  = Raise (KeyError ["Net Revenue"]).
Proof.
  destruct (net_revenue_is_column_total sample_table) as [Hnum _].
  destruct Hnum as (s & Hs & Hcalc & Hperm); [compute_done|].
  vm_compute in Hs. injection Hs as <-.
  split; [exact Hcalc|]. split.
  - apply Hperm; [done|]. simpl. apply reverse_Permutation.
  - apply (proj2 (net_revenue_is_column_total
                    two_row_selection_without_revenue)).
    compute_done.
Defined.

(** X2: on a table whose "Ins." and "Net Revenue" columns are [int64]
    columns the insurance chart has the net revenue less the insurance
    amount under "Non Ins" and the insurance amount under "Ins"; added in
    64-bit arithmetic the two slices give the net-revenue indicator, and
    they add up to it exactly when their sum fits in 64 bits. *)
Theorem insurance_slices_add_up_to_revenue (df : DataFrame) :
  int64_column "Ins." df → int64_column "Net Revenue" df →
  ∃ non_insurance insurance total : Z,
    calculate_insurance_vs_non_insurance df
    = Ok (mkPieChart ["Non Ins"; "Ins"] [Num non_insurance; Num insurance]
                     "label+value") ∧
    column_total "Ins." df = Ok (Num insurance) ∧
    calculate_net_revnenue df = Ok (mkIndicator (Num total) "Net Revenue") ∧
    wrap64 (non_insurance + insurance) = total ∧
    (in_int64 (non_insurance + insurance) →
     (non_insurance + insurance = total)%Z).
Proof.
  intros (pi & _ & Hins & Hin)%int64_column_Ok
         (pr & _ & Hrev & Hrn)%int64_column_Ok.
  pose proof (sum_series_int64 _ Hin) as Hitot.
  pose proof (sum_series_int64 _ Hrn) as Hrtot.
  set (i := wrap64 (amount_total (column_at pi df))) in *.
  set (t := wrap64 (amount_total (column_at pr df))) in *.
  assert (wrap64 (wrap64 (t - i) + i) = t) as Hsum.
  { rewrite wrap64_sub_add. apply wrap64_id, in_int64_wrap64. }
  exists (wrap64 (t - i)), i, t. repeat split.
  - unfold calculate_insurance_vs_non_insurance.
    rewrite Hins. cbn [mbind result_bind]. rewrite Hitot.
    cbn [mbind result_bind]. rewrite Hrev. cbn [mbind result_bind].
    by rewrite Hrtot.
  - unfold column_total. rewrite Hins. done.
  - unfold calculate_net_revnenue. rewrite Hrev. cbn [mbind result_bind].
    by rewrite Hrtot.
  - done.
  - intros Hfit. etrans; [symmetry; apply wrap64_id, Hfit | exact Hsum].
Qed.

Lemma insurance_slices_add_up_to_revenue_witness :
  ∃ non_insurance insurance total : Z,
    calculate_insurance_vs_non_insurance sample_table
    = Ok (mkPieChart ["Non Ins"; "Ins"] [Num non_insurance; Num insurance]
                     "label+value") ∧
    column_total "Ins." sample_table = Ok (Num insurance) ∧
    calculate_net_revnenue sample_table
    = Ok (mkIndicator (Num total) "Net Revenue") ∧
    wrap64 (non_insurance + insurance) = total ∧
    (in_int64 (non_insurance + insurance) →
     (non_insurance + insurance = total)%Z).
Proof.
  apply (insurance_slices_add_up_to_revenue sample_table); compute_done.
Defined.

Section registration.
Implicit Types (rs : list (list cell)) (pn po : nat).

Lemma flags_add_up_to_length pn po rs :
  Forall (λ r, ∃ a b : Z,
            r !! pn = Some (Num a) ∧ r !! po = Some (Num b) ∧
            (0 ≤ a)%Z ∧ (0 ≤ b)%Z ∧ (a + b = 1)%Z) rs →
  forallb is_int64 ((λ r, r !!! pn) <$> rs) ∧
  forallb is_int64 ((λ r, r !!! po) <$> rs) ∧
  (0 ≤ amount_total ((λ r, r !!! pn) <$> rs))%Z ∧
  (0 ≤ amount_total ((λ r, r !!! po) <$> rs))%Z ∧
  (amount_total ((λ r, r !!! pn) <$> rs)
   + amount_total ((λ r, r !!! po) <$> rs) = Z.of_nat (length rs))%Z.
Proof.
  unfold amount_total.
  induction 1
    as [|r rs (a & b & Ha & Hb & Ha0 & Hb0 & Hab) _
          (IH1 & IH2 & IH3 & IH4 & IH5)];
    [done|].
  rewrite !fmap_cons, !sumZ_cons.
  rewrite (list_lookup_total_correct _ _ _ Ha),
    (list_lookup_total_correct _ _ _ Hb).
  cbn [forallb is_int64 num_of length].
  assert (in_int64 a) by (apply bool_decide_pack; lia).
  assert (in_int64 b) by (apply bool_decide_pack; lia).
  repeat split; try (apply andb_True; by split); lia.
Qed.

End registration.

(** X3: when every row has, under "New Reg." and under "Old Reg.", one
    flag 0 and one flag 1 (a visit is a new or an old registration), and
    the table has fewer than 2^63 rows, the two slices of the registration
    chart add up to the patient indicator. *)
Theorem registration_slices_add_up_to_patients (df : DataFrame) :
  "New Reg." ∈ columns df → "Old Reg." ∈ columns df →
  Forall (λ r, ∃ a b : Z,
            row_cell df r "New Reg." = Some (Num a) ∧
            row_cell df r "Old Reg." = Some (Num b) ∧
            (0 ≤ a)%Z ∧ (0 ≤ b)%Z ∧ (a + b = 1)%Z) (rows df) →
  (Z.of_nat (length (rows df)) < 2 ^ 63)%Z →
  ∃ new_reg old_reg : Z,
    calculate_new_vs_old_reg df
    = Ok (mkPieChart ["New"; "Old"] [Num new_reg; Num old_reg]
                     "label+value") ∧
    value (calculate_number_of_patients df) = Num (new_reg + old_reg).
Proof.
  intros (pn & Hpn)%get_loc_elem_of (po & Hpo)%get_loc_elem_of Hrows Hlen.
  unfold row_cell in Hrows. rewrite Hpn, Hpo in Hrows. simpl in Hrows.
  destruct (flags_add_up_to_length pn po (rows df) Hrows)
    as (Hn & Ho & Hn0 & Ho0 & Hsum).
  exists (amount_total (column_at pn df)), (amount_total (column_at po df)).
  unfold column_at in *. split.
  - unfold calculate_new_vs_old_reg, getitem. rewrite Hpn, Hpo.
    cbn [mbind result_bind]. unfold column_at.
    rewrite !sum_series_int64 by done. cbn [mbind result_bind].
    rewrite !wrap64_id by (apply bool_decide_pack; lia). done.
  - simpl. f_equal. lia.
Qed.

Lemma registration_slices_add_up_to_patients_witness :
  ∃ new_reg old_reg : Z,
    calculate_new_vs_old_reg sample_table
    = Ok (mkPieChart ["New"; "Old"] [Num new_reg; Num old_reg]
                     "label+value") ∧
    value (calculate_number_of_patients sample_table)
    = Num (new_reg + old_reg).
Proof.
  apply (registration_slices_add_up_to_patients sample_table).
  - compute_done.
  - compute_done.
  - repeat constructor.
    + exists 1%Z, 0%Z. by vm_compute.
    + exists 0%Z, 1%Z. by vm_compute.
  - by vm_compute.
Defined.

(** ** The order of the columns *)

Section column_order.
Context {A : Type} `{Inhabited A}.
Implicit Types (df : Frame string A) (cols labels : list string).

Lemma filter_ext_elem {X : Type} (P Q : X → Prop)
    `{!∀ x, Decision (P x), !∀ x, Decision (Q x)} (l : list X) :
  (∀ x, x ∈ l → P x ↔ Q x) → filter P l = filter Q l.
Proof.
  induction l as [|x l IH]; intros Hext; [done|].
  rewrite !filter_cons, IH.
  - destruct (decide (P x)) as [HP|HP], (decide (Q x)) as [HQ|HQ];
      try done; exfalso; apply (Hext x) in HP || apply (Hext x) in HQ;
      done || (apply elem_of_cons; auto).
  - intros y Hy. apply Hext. apply elem_of_cons. auto.
Qed.

Lemma fmap_filter_seq_lookup {X : Type} `{Inhabited X} (P : X → Prop)
    `{!∀ x, Decision (P x)} (l : list X) :
  (λ p, l !!! p) <$> filter (λ p, P (l !!! p)) (seq 0 (length l))
  = filter P l.
Proof.
  induction l as [|x l IH] using rev_ind; [done|].
  rewrite length_app, Nat.add_1_r, seq_S, !filter_app, fmap_app.
  cbn [length Nat.add]. f_equal.
  - rewrite <- IH.
    rewrite (filter_ext_elem (λ p, P ((l ++ [x]) !!! p))
               (λ p, P (l !!! p))).
    + apply Forall_fmap_ext_1, Forall_forall.
      intros p [_ Hp%elem_of_seq]%list_elem_of_filter.
      apply lookup_total_app_l. lia.
    + intros p Hp%elem_of_seq. by rewrite lookup_total_app_l by lia.
  - rewrite !filter_cons, !filter_nil.
    rewrite list_lookup_total_middle by done.
    destruct (decide (P x)); [|done].
    rewrite fmap_cons. by rewrite list_lookup_total_middle.
Qed.

Lemma columns_dropped_filter labels df :
  columns (take_cols (kept_positions labels (columns df)) df)
  = filter (λ k, k ∉ labels) (columns df).
Proof.
  unfold kept_positions. simpl.
  exact (fmap_filter_seq_lookup (λ k, k ∉ labels) (columns df)).
Qed.

Lemma columns_setitem_add_label key (s : list A) df :
  columns (setitem key s df) = add_label (columns df) key.
Proof.
  unfold setitem, add_label.
  destruct (get_loc key (columns df)) as [p|] eqn:E.
  - rewrite decide_True; [done|].
    apply get_loc_Some in E. by eapply list_elem_of_lookup_2.
  - rewrite decide_False; [done|]. by apply get_loc_None.
Qed.

Lemma elem_of_add_label cols c k :
  k ∈ add_label cols c ↔ k ∈ cols ∨ k = c.
Proof.
  unfold add_label. destruct (decide (c ∈ cols)) as [Hc|Hc].
  - split; [auto|]. by intros [?| ->].
  - by rewrite elem_of_app, list_elem_of_singleton.
Qed.

Lemma elem_of_foldl_add_label l : ∀ cols k,
  k ∈ foldl add_label cols l ↔ k ∈ cols ∨ k ∈ l.
Proof.
  induction l as [|c l IH]; intros cols k; simpl.
  - rewrite elem_of_nil. tauto.
  - rewrite IH, elem_of_add_label, elem_of_cons. tauto.
Qed.

(** Adding distinct labels appends the new ones in order. *)
Lemma foldl_add_label_NoDup l : ∀ cols,
  NoDup l →
  foldl add_label cols l = cols ++ filter (λ k, k ∉ cols) l.
Proof.
  induction l as [|c l IH]; intros cols Hl.
  - simpl. by rewrite app_nil_r.
  - apply NoDup_cons in Hl as [Hc Hl]. simpl. rewrite IH by done.
    rewrite filter_cons. unfold add_label.
    destruct (decide (c ∈ cols)) as [Hin|Hin].
    + by rewrite decide_False by auto.
    + rewrite decide_True by done. rewrite <- app_assoc. simpl.
      do 2 f_equal. apply filter_ext_elem. intros k Hk.
      rewrite elem_of_app, list_elem_of_singleton.
      split; [tauto|]. intros Hk' [?| ->]; done.
Qed.

(** A label that was added before adds nothing. *)
Lemma foldl_add_label_again l1 c l2 cols :
  c ∈ l1 →
  foldl add_label cols (l1 ++ c :: l2) = foldl add_label cols (l1 ++ l2).
Proof.
  intros Hc. rewrite !foldl_app. simpl. f_equal.
  unfold add_label at 1. rewrite decide_True; [done|].
  apply elem_of_foldl_add_label. auto.
Qed.

End column_order.

Section fold_order.
Implicit Types (df : DataFrame) (st : DataFrame * list string).

Lemma foldM_fold_category_columns l : ∀ st st',
  foldM fold_category st l = Ok st' →
  columns st'.1 = foldl add_label (columns st.1) l.
Proof.
  induction l as [|c l IH]; intros st st' Hrun.
  - by injection Hrun as <-.
  - simpl in Hrun. apply bind_Ok in Hrun as (st1 & Hstep & Hrun).
    rewrite (IH _ _ Hrun). simpl. f_equal.
    apply fold_category_Ok in Hstep as (? & ? & total & _ & _ & _ & ->).
    apply columns_setitem_add_label.
Qed.

Lemma foldl_add_label_categories (cols : list string) :
  foldl add_label cols REVENUE_GENERATING_CATEGORIES
  = cols ++ filter (λ k, k ∉ cols) DISTINCT_CATEGORIES.
Proof.
  rewrite <- foldl_add_label_NoDup by compute_done.
  apply (foldl_add_label_again
           ["Consultation"; "Lab"; "Radiology"; "Procedure"] "Lab"
           ["Consumable"; "Drug"]).
  compute_done.
Qed.

End fold_order.

(** Where the columns of the folded table come from. *)
Lemma get_revenue_other_columns (df df' : DataFrame) :
  wf df → get_revenue_per_category df = Ok df' →
  columns df'
  = filter (λ k, k ∉ SUB_COLUMNS) (columns df)
    ++ filter (λ k, k ∉ columns df) DISTINCT_CATEGORIES ∧
  ∀ k, k ∉ REVENUE_GENERATING_CATEGORIES → k ∉ SUB_COLUMNS →
       getitem k df' = getitem k df.
Proof.
  intros Hwf Hrun.
  unfold get_revenue_per_category, get_revenue_per_category_over in Hrun.
  apply bind_Ok in Hrun as (st & Hloop & Hdrop).
  assert (folded df REVENUE_GENERATING_CATEGORIES st) as Hst.
  { apply (foldM_folded df REVENUE_GENERATING_CATEGORIES [] (df, []));
      [apply sub_free_categories | by apply folded_init | done]. }
  rewrite drop_cols_Ok in Hdrop by by eapply folded_remove_present.
  injection Hdrop as <-.
  pose proof (folded_remove _ _ _ Hst) as Hrm.
  change (st.2 = SUB_COLUMNS) in Hrm. rewrite Hrm. split.
  - rewrite columns_dropped_filter.
    rewrite (foldM_fold_category_columns _ _ _ Hloop). cbn [fst].
    rewrite foldl_add_label_categories, filter_app. f_equal.
    rewrite list_filter_filter. apply filter_ext_elem. intros k Hk.
    split; [tauto|]. intros Hnew. split; [|done].
    assert (Forall (λ c, c ∉ SUB_COLUMNS) DISTINCT_CATEGORIES) as Hno
      by compute_done.
    rewrite Forall_forall in Hno. auto.
  - intros k Hcat Hsub. rewrite getitem_dropped; [|apply Hst|done].
    by apply (folded_other _ _ _ Hst).
Qed.

(** X4: in the table that [get_revenue_per_category] returns the columns
    of the input keep their order, without the cash-net and insurance-net
    columns of the categories; the categories that were no column of the
    input follow, in the order of the category list; a column that is
    neither a category nor one of these sub-columns holds the cells it
    held. *)
Theorem folding_keeps_the_other_columns (df df' : DataFrame) :
  wf df → get_revenue_per_category df = Ok df' →
  columns df'
  = filter (λ k, k ∉ SUB_COLUMNS) (columns df)
    ++ filter (λ k, k ∉ columns df) DISTINCT_CATEGORIES ∧
  ∀ k, k ∉ REVENUE_GENERATING_CATEGORIES → k ∉ SUB_COLUMNS →
       getitem k df' = getitem k df.
Proof.
  apply get_revenue_other_columns.
Qed.

Lemma folding_keeps_the_other_columns_witness :
  columns sample_table
  = filter (λ k, k ∉ SUB_COLUMNS) (columns two_row_selection)
    ++ filter (λ k, k ∉ columns two_row_selection) DISTINCT_CATEGORIES ∧
  ∀ k, k ∉ REVENUE_GENERATING_CATEGORIES → k ∉ SUB_COLUMNS →
       getitem k sample_table = getitem k two_row_selection.
Proof.
  apply (folding_keeps_the_other_columns two_row_selection sample_table).
  - apply wf_two_row_selection.
  - vm_compute. reflexivity.
Defined.

(** ** Errors of the folding step *)

(** X5: [get_revenue_per_category] reports the first sub-column that is
    missing, in the order of the category list and cash before insurance:
    when the categories before [c] have their numeric sub-columns and the
    cash-net column of [c] is missing, the step raises [KeyError] for it;
    when only the insurance-net column of [c] is missing, for that one. *)
Theorem folding_reports_first_missing_column (df : DataFrame)
    (done todo : list string) (c : string) :
  REVENUE_GENERATING_CATEGORIES = done ++ c :: todo →
  wf df → has_net_columns done df →
  (cash_col c ∉ columns df →
   get_revenue_per_category df = Raise (KeyError [cash_col c])) ∧
  (cash_col c ∈ columns df → ins_col c ∉ columns df →
   get_revenue_per_category df = Raise (KeyError [ins_col c])).
Proof.
  intros Hcats Hwf Hnet.
  pose proof sub_free_categories as Hfree.
  destruct (sub_free_not_elem _ c Hfree) as [Hc1 Hc2].
  { rewrite Hcats, elem_of_app, elem_of_cons. auto. }
  rewrite Hcats in Hfree, Hc1, Hc2. rewrite elem_of_app in Hc1, Hc2.
  destruct (foldM_total df done [] (df, [])) as [st Hloop];
    [by eapply sub_free_app_l | by apply folded_init | done |].
  assert (folded df done st) as Hst.
  { apply (foldM_folded df done [] (df, []));
      [by eapply sub_free_app_l | by apply folded_init | done]. }
  assert (∀ e, fold_category st c = Raise e →
               get_revenue_per_category df = Raise e) as Hraise.
  { intros e He.
    unfold get_revenue_per_category, get_revenue_per_category_over.
    rewrite Hcats, foldM_app, Hloop. cbn [mbind result_bind foldM].
    by rewrite He. }
  split.
  - intros Hmiss. apply Hraise. unfold fold_category.
    rewrite (folded_other _ _ _ Hst (cash_col c)) by tauto.
    rewrite (getitem_missing (cash_col c) df) by done. reflexivity.
  - intros (cash & Hcash)%getitem_is_Ok Hmiss. apply Hraise.
    unfold fold_category.
    rewrite (folded_other _ _ _ Hst (cash_col c)),
      (folded_other _ _ _ Hst (ins_col c)) by tauto.
    rewrite Hcash. cbn [mbind result_bind].
    rewrite (getitem_missing (ins_col c) df) by done. reflexivity.
Qed.

Lemma folding_reports_first_missing_column_witness :
  get_revenue_per_category two_row_selection_without_radiology_ins
  = Raise (KeyError ["Radiology_Net_Ins."]).
Proof.
  apply (folding_reports_first_missing_column
           two_row_selection_without_radiology_ins
           ["Consultation"; "Lab"] ["Procedure"; "Lab"; "Consumable"; "Drug"]
           "Radiology").
  - reflexivity.
  - split; compute_done.
  - unfold has_net_columns. compute_done.
  - compute_done.
  - compute_done.
Defined.

(** X6: the folding step cannot be run twice: on a table that it returned
    it raises [KeyError] for "Consultation_Net_Cash", the first sub-column
    it removed. *)
Theorem folding_again_raises (df df' : DataFrame) :
  wf df → get_revenue_per_category df = Ok df' →
  get_revenue_per_category df' = Raise (KeyError ["Consultation_Net_Cash"]).
Proof.
  intros Hwf Hrun.
  destruct (get_revenue_over_columns _ _ _ Hwf sub_free_categories Hrun)
    as (_ & _ & _ & Hgone).
  destruct (Hgone "Consultation") as [Hcash _]; [compute_done|].
  unfold get_revenue_per_category, get_revenue_per_category_over,
    REVENUE_GENERATING_CATEGORIES.
  assert (fold_category (df', []) "Consultation"
          = Raise (KeyError ["Consultation_Net_Cash"])) as Hstep.
  { unfold fold_category. cbn [fst].
    rewrite (getitem_missing (cash_col "Consultation") df') by done.
    reflexivity. }
  cbn [foldM]. by rewrite Hstep.
Qed.

Lemma folding_again_raises_witness :
  get_revenue_per_category sample_table
  = Raise (KeyError ["Consultation_Net_Cash"]).
Proof.
  apply (folding_again_raises two_row_selection sample_table).
  - apply wf_two_row_selection.
  - vm_compute. reflexivity.
Defined.

(** ** The column selection *)

Section selection.
Implicit Types (df sel : DataFrame) (keys : list string).

Lemma getitem_selected keys df sel k :
  wf df → NoDup keys → getitem_list keys df = Ok sel → k ∈ keys →
  getitem k sel = getitem k df.
Proof.
  intros Hwf Hkeys Hsel Hk.
  destruct (getitem_list_selected _ _ _ Hwf Hkeys Hsel)
    as ([Hnd _] & Hcols & _).
  pose proof (getitem_list_present _ _ _ Hsel) as Hpres.
  rewrite getitem_list_Ok in Hsel by (done || apply Hwf).
  injection Hsel as <-.
  rewrite Forall_forall in Hpres.
  destruct (get_loc_elem_of _ _ (Hpres k Hk)) as [p Hp].
  apply list_elem_of_lookup in Hk as [q Hq].
  unfold getitem at 2. rewrite Hp. apply getitem_Ok. exists q. split.
  - apply get_loc_NoDup; [done|]. by rewrite Hcols.
  - symmetry. apply column_at_take.
    rewrite list_lookup_fmap, Hq. simpl. by rewrite Hp.
Qed.

Lemma mapM_strftime_dates (dates : Series) :
  forallb is_date dates →
  ∃ formatted, mapM strftime dates = Ok formatted ∧
               forallb is_str formatted.
Proof.
  induction dates as [|c dates IH]; intros Hd; [by exists []|].
  simpl in Hd. apply andb_True in Hd as [Hc Hd].
  destruct (IH Hd) as (formatted & Hf & Hstr).
  destruct c as [| |y m d]; [done..|].
  eexists. split.
  - apply mapM_Ok. constructor; [reflexivity|]. by apply mapM_Ok.
  - done.
Qed.

Lemma mapM_strftime_Ok (dates formatted : Series) :
  mapM strftime dates = Ok formatted →
  forallb is_date dates ∧ forallb is_str formatted.
Proof.
  intros Hf%mapM_Ok. induction Hf as [|c v dates formatted Hc _ [IH1 IH2]];
    [done|].
  destruct c as [| |y m d]; [done..|]. injection Hc as <-. by simpl.
Qed.

Lemma mapM_strftime_other (dates : Series) :
  ¬ forallb is_date dates → mapM strftime dates = Raise AttributeError.
Proof.
  induction dates as [|c dates IH]; intros Hd; [by destruct Hd|].
  change (mapM strftime (c :: dates))
    with (strftime c ≫= λ y, mapM strftime dates ≫= λ k, mret (y :: k)).
  destruct c as [| |y m d]; [done..|]. simpl in Hd.
  rewrite IH by done. done.
Qed.

Lemma required_cols_again df df' :
  columns df' = required_cols df → required_cols df' = columns df'.
Proof.
  intros Hcols. unfold required_cols at 1. rewrite Hcols.
  unfold required_cols. rewrite filter_app, list_filter_filter.
  assert (filter (λ col, contains "_Net_" col) METADATA_COLUMNS = []) as ->
    by (vm_compute; reflexivity).
  rewrite app_nil_r. f_equal. apply list_filter_iff. tauto.
Qed.

End selection.

(** What the selection returns. *)
Lemma focus_on_specific_columns_cells (df df' : DataFrame) :
  wf df → focus_on_specific_columns df = Ok df' →
  columns df'
  = filter (λ col, contains "_Net_" col) (columns df) ++ METADATA_COLUMNS ∧
  wf df' ∧ length (rows df') = length (rows df) ∧
  (∀ k, k ∈ columns df' → k ≠ "(CVR) Date" →
        getitem k df' = getitem k df) ∧
  ∃ dates formatted,
    getitem "(CVR) Date" df = Ok dates ∧
    mapM strftime dates = Ok formatted ∧
    getitem "(CVR) Date" df' = Ok formatted ∧
    forallb is_date dates ∧ forallb is_str formatted.
Proof.
  intros Hwf Hrun.
  destruct (focus_on_specific_columns_Ok _ _ Hwf Hrun)
    as (Hwf' & Hcols & Hrows).
  unfold focus_on_specific_columns in Hrun.
  apply bind_Ok in Hrun as (sel & Hsel & Hrun).
  apply bind_Ok in Hrun as (dates & Hdates & Hrun).
  apply bind_Ok in Hrun as (formatted & Hfmt & [= <-]).
  pose proof (required_cols_NoDup df (proj1 Hwf)) as Hreq.
  destruct (getitem_list_selected _ _ _ Hwf Hreq Hsel)
    as (Hwfs & Hscols & Hsrows).
  assert (length formatted = length (rows sel)) as Hlen.
  { by rewrite (mapM_Ok_length _ _ _ Hfmt), (getitem_length _ _ _ Hdates). }
  assert ("(CVR) Date" ∈ required_cols df) as Hdate.
  { unfold required_cols. apply elem_of_app. right. compute_done. }
  repeat split; try done; try apply Hwf'.
  - intros k Hk Hne. rewrite getitem_setitem_ne by done.
    apply (getitem_selected (required_cols df)); try done.
    by rewrite <- Hcols.
  - exists dates, formatted.
    rewrite <- (getitem_selected _ _ _ _ Hwf Hreq Hsel Hdate).
    rewrite getitem_setitem_eq by done.
    destruct (mapM_strftime_Ok _ _ Hfmt). done.
Qed.

(** X7: the table that [focus_on_specific_columns] returns has the
    columns whose name contains "_Net_", in their order, followed by the
    eight metadata columns, and as many rows as the input; every column
    but "(CVR) Date" holds the cells it held, and "(CVR) Date" holds the
    formatted dates, which are text. *)
Theorem selection_keeps_net_and_metadata (df df' : DataFrame) :
  wf df → focus_on_specific_columns df = Ok df' →
  columns df'
  = filter (λ col, contains "_Net_" col) (columns df) ++ METADATA_COLUMNS ∧
  wf df' ∧ length (rows df') = length (rows df) ∧
  (∀ k, k ∈ columns df' → k ≠ "(CVR) Date" →
        getitem k df' = getitem k df) ∧
  ∃ dates formatted,
    getitem "(CVR) Date" df = Ok dates ∧
    mapM strftime dates = Ok formatted ∧
    getitem "(CVR) Date" df' = Ok formatted ∧
    forallb is_date dates ∧ forallb is_str formatted.
Proof.
  apply focus_on_specific_columns_cells.
Qed.

Lemma selection_keeps_net_and_metadata_witness :
  focus_on_specific_columns two_row_flat = Ok two_row_selection ∧
  columns two_row_selection
  = filter (λ col, contains "_Net_" col) (columns two_row_flat)
    ++ METADATA_COLUMNS.
Proof.
  assert (focus_on_specific_columns two_row_flat = Ok two_row_selection)
    as Hrun by (vm_compute; reflexivity).
  split; [done|].
  apply (selection_keeps_net_and_metadata two_row_flat two_row_selection);
    [split; compute_done | done].
Defined.

Lemma focus_by_dates (df : DataFrame) (dates : Series) :
  wf df → Forall (λ k, k ∈ columns df) METADATA_COLUMNS →
  getitem "(CVR) Date" df = Ok dates →
  (forallb is_date dates → ∃ df', focus_on_specific_columns df = Ok df') ∧
  (¬ forallb is_date dates →
   focus_on_specific_columns df = Raise AttributeError).
Proof.
  intros Hwf Hmeta Hdates.
  pose proof (required_cols_NoDup df (proj1 Hwf)) as Hreq.
  assert (Forall (λ k, k ∈ columns df) (required_cols df)) as Hpres.
  { unfold required_cols. apply Forall_app. split; [|done].
    apply Forall_forall. by intros k [_ ?]%list_elem_of_filter. }
  assert ("(CVR) Date" ∈ required_cols df) as Hdate.
  { unfold required_cols. apply elem_of_app. right. compute_done. }
  pose proof (getitem_list_Ok (required_cols df) df (proj1 Hwf) Hpres)
    as Hsel.
  pose proof (getitem_selected _ _ _ _ Hwf Hreq Hsel Hdate) as Hsdates.
  rewrite Hdates in Hsdates.
  unfold focus_on_specific_columns. rewrite Hsel.
  cbn [mbind result_bind]. rewrite Hsdates. cbn [mbind result_bind].
  split.
  - intros (formatted & -> & _)%mapM_strftime_dates. by eexists.
  - intros Hother. by rewrite mapM_strftime_other.
Qed.

(** X8: when the table has every metadata column,
    [focus_on_specific_columns] returns a table if every "(CVR) Date" cell
    is a date, and raises [AttributeError] if some cell is not. *)
Theorem selection_needs_dates (df : DataFrame) (dates : Series) :
  wf df → Forall (λ k, k ∈ columns df) METADATA_COLUMNS →
  getitem "(CVR) Date" df = Ok dates →
  (forallb is_date dates → ∃ df', focus_on_specific_columns df = Ok df') ∧
  (¬ forallb is_date dates →
   focus_on_specific_columns df = Raise AttributeError).
Proof.
  apply focus_by_dates.
Qed.

Lemma selection_needs_dates_witness :
  (∃ df', focus_on_specific_columns two_row_flat = Ok df') ∧
  focus_on_specific_columns two_row_flat_text_date = Raise AttributeError.
Proof.
  split.
  - apply (proj1 (selection_needs_dates two_row_flat
                    [Date 2024 3 7; Date 2024 3 7]
                    ltac:(split; compute_done) ltac:(compute_done)
                    ltac:(vm_compute; reflexivity))).
    done.
  - apply (proj2 (selection_needs_dates two_row_flat_text_date
                    [Str "07/03/2024"; Date 2024 3 7]
                    ltac:(split; compute_done) ltac:(compute_done)
                    ltac:(vm_compute; reflexivity))).
    by intros [].
Defined.

(** X9: the selection cannot be run twice on a table with rows: the dates
    it formatted are text, so on a table that it returned it raises
    [AttributeError]. *)
Theorem selection_again_raises (df df' : DataFrame) :
  wf df → rows df ≠ [] → focus_on_specific_columns df = Ok df' →
  focus_on_specific_columns df' = Raise AttributeError.
Proof.
  intros Hwf Hrows Hrun.
  destruct (focus_on_specific_columns_Ok _ _ Hwf Hrun)
    as (Hwf' & Hcols & Hlen).
  unfold focus_on_specific_columns in Hrun.
  apply bind_Ok in Hrun as (sel & Hsel & Hrun).
  apply bind_Ok in Hrun as (dates & Hdates & Hrun).
  apply bind_Ok in Hrun as (formatted & Hfmt & Hdf').
  injection Hdf' as Hdf'.
  pose proof (required_cols_NoDup df (proj1 Hwf)) as Hreq.
  destruct (getitem_list_selected _ _ _ Hwf Hreq Hsel) as (Hwfs & _ & Hsrows).
  assert (length formatted = length (rows sel)) as Hflen.
  { by rewrite (mapM_Ok_length _ _ _ Hfmt), (getitem_length _ _ _ Hdates). }
  assert (getitem "(CVR) Date" df' = Ok formatted) as Hget.
  { rewrite <- Hdf'. by apply getitem_setitem_eq. }
  destruct (mapM_strftime_Ok _ _ Hfmt) as [_ Hstr].
  assert (Forall (λ k, k ∈ columns df') METADATA_COLUMNS) as Hmeta.
  { rewrite Hcols. unfold required_cols. apply Forall_forall.
    intros k Hk. apply elem_of_app. by right. }
  apply (proj2 (focus_by_dates df' formatted Hwf' Hmeta Hget)).
  destruct formatted as [|c formatted].
  - destruct Hrows. apply nil_length_inv. by rewrite <- Hsrows, <- Hflen.
  - simpl in Hstr. apply andb_True in Hstr as [Hc _].
    destruct c; try done. simpl. by intros [].
Qed.

Lemma selection_again_raises_witness :
  focus_on_specific_columns two_row_selection = Raise AttributeError.
Proof.
  apply (selection_again_raises two_row_flat two_row_selection).
  - split; compute_done.
  - done.
  - vm_compute. reflexivity.
Defined.


(** ** The slices of the episode chart *)

Section episode_slices.
Implicit Types (df : DataFrame) (d : list (string * cell)) (l : list string).

Lemma dict_set_fresh k v d : k ∉ d.*1 → dict_set k v d = d ++ [(k, v)].
Proof.
  induction d as [|[k' v'] d IH]; intros Hk; [done|].
  rewrite fmap_cons, not_elem_of_cons in Hk. destruct Hk as [Hne Hk].
  cbn [dict_set fst]. rewrite decide_False by done.
  by rewrite IH.
Qed.

Lemma dict_set_same k v d : NoDup d.*1 → (k, v) ∈ d → dict_set k v d = d.
Proof.
  induction d as [|[k' v'] d IH]; intros Hnd Hin; [by apply elem_of_nil in Hin|].
  rewrite fmap_cons in Hnd. apply NoDup_cons in Hnd as [Hk' Hnd].
  cbn [dict_set fst]. apply elem_of_cons in Hin as [[= <- <-]|Hin].
  - by rewrite decide_True.
  - rewrite decide_False.
    + by rewrite IH.
    + intros ->. apply Hk'. apply list_elem_of_fmap. by exists (k, v).
Qed.

Lemma fst_episodes_items df l : (episodes_item df <$> l).*1 = l.
Proof.
  rewrite <- list_fmap_compose. rewrite <- (list_fmap_id l) at 2.
  by apply list_fmap_ext.
Qed.

(** Counting categories that are not yet keys appends their items. *)
Lemma foldM_episodes_fresh df l : ∀ d,
  wf df → Forall (λ k, k ∈ columns df) l → NoDup l →
  (∀ k, k ∈ d.*1 → k ∉ l) →
  foldM (episodes_step df) d l
  = Ok (d ++ (episodes_item df
                <$> filter (λ c, column_episodes c df ≠ 0%Z) l)).
Proof.
  induction l as [|c l IH]; intros d Hwf Hcols Hl Hd.
  - simpl. by rewrite app_nil_r.
  - apply Forall_cons in Hcols as [Hc Hcols].
    apply NoDup_cons in Hl as [Hcl Hl].
    cbn [foldM]. rewrite episodes_step_total by done.
    cbn [mbind result_bind]. rewrite filter_cons.
    destruct (decide (column_episodes c df ≠ 0%Z)) as [Hnz|Hz].
    + rewrite dict_set_fresh.
      * rewrite IH; [|done..|].
        { by rewrite fmap_cons, <- app_assoc. }
        intros k. rewrite fmap_app, elem_of_app. simpl.
        rewrite list_elem_of_singleton. intros [Hk| ->]; [|done].
        specialize (Hd k Hk). rewrite not_elem_of_cons in Hd. tauto.
      * intros Hk. apply (Hd c Hk). apply elem_of_cons. auto.
    + apply IH; [done..|]. intros k Hk. specialize (Hd k Hk).
      rewrite not_elem_of_cons in Hd. tauto.
Qed.

(** A category that was counted before changes nothing. *)
Lemma foldM_episodes_again df l1 c l2 :
  wf df → Forall (λ k, k ∈ columns df) l1 → NoDup l1 → c ∈ l1 →
  foldM (episodes_step df) [] (l1 ++ c :: l2)
  = foldM (episodes_step df) [] (l1 ++ l2).
Proof.
  intros Hwf Hcols Hl1 Hc. rewrite !foldM_app.
  rewrite foldM_episodes_fresh; [|done..|by intros k ?%elem_of_nil].
  cbn [mbind result_bind foldM app].
  rewrite episodes_step_total;
    [|done|by rewrite Forall_forall in Hcols; apply Hcols].
  cbn [mbind result_bind].
  destruct (decide (column_episodes c df ≠ 0%Z)) as [Hnz|Hz]; [|done].
  rewrite dict_set_same; [done| |].
  - rewrite fst_episodes_items. by apply NoDup_filter.
  - apply list_elem_of_fmap. exists c. split; [done|].
    by apply list_elem_of_filter.
Qed.

Lemma episodes_per_category_items df :
  wf df → Forall (λ k, k ∈ columns df) REVENUE_GENERATING_CATEGORIES →
  foldM (episodes_step df) [] REVENUE_GENERATING_CATEGORIES
  = Ok (episodes_item df <$> categories_with_episodes df).
Proof.
  intros Hwf Hcols.
  assert (Forall (λ k, k ∈ columns df) DISTINCT_CATEGORIES) as Hdist.
  { rewrite Forall_forall in *. intros k Hk. apply Hcols.
    revert k Hk. apply Forall_forall. compute_done. }
  transitivity (foldM (episodes_step df) [] DISTINCT_CATEGORIES).
  - apply (foldM_episodes_again df
             ["Consultation"; "Lab"; "Radiology"; "Procedure"] "Lab"
             ["Consumable"; "Drug"]); [done| |compute_done..].
    rewrite Forall_forall in *. intros k Hk. apply Hdist.
    revert k Hk. apply Forall_forall. compute_done.
  - apply (foldM_episodes_fresh df DISTINCT_CATEGORIES []); try done.
    + compute_done.
    + by intros k ?%elem_of_nil.
Qed.

Lemma sumZ_filter_nonzero {X : Type} (f : X → Z) (l : list X) :
  sumZ (f <$> filter (λ x, f x ≠ 0%Z) l) = sumZ (f <$> l).
Proof.
  induction l as [|x l IH]; [done|].
  rewrite filter_cons, fmap_cons, sumZ_cons.
  destruct (decide (f x ≠ 0%Z)) as [Hnz|Hz].
  - by rewrite fmap_cons, sumZ_cons, IH.
  - apply dec_stable in Hz. rewrite IH. lia.
Qed.

Lemma nonzero_cells_sum l df :
  nonzero_cells l df = sumZ ((λ c, column_episodes c df) <$> l).
Proof.
  induction l as [|c l IH]; [apply nonzero_cells_nil|].
  by rewrite nonzero_cells_cons, fmap_cons, sumZ_cons, IH.
Qed.

End episode_slices.

(** X10: on a normalized table the episode chart has one slice for each
    category with a non-zero cell, in the order Consultation, Lab,
    Radiology, Procedure, Consumable, Drug, with its count of non-zero
    cells; the episode indicator is the sum of these slices plus the
    number of non-zero "Lab" cells, "Lab" being counted twice there. *)
Theorem episode_slices_in_list_order (df : DataFrame) :
  normalized df →
  calculate_episodes_per_category df
  = Ok (mkPieChart (categories_with_episodes df)
          ((λ c, Num (column_episodes c df)) <$> categories_with_episodes df)
          "label+value") ∧
  calculate_number_of_episodes df
  = Ok (mkIndicator
          (Num (sumZ ((λ c, column_episodes c df)
                        <$> categories_with_episodes df)
                + column_episodes "Lab" df))
          "Revenue Generating<br>Episodes").
Proof.
  intros [Hwf Hcols]. apply Forall_app in Hcols as [Hcats _]. split.
  - unfold calculate_episodes_per_category.
    rewrite episodes_per_category_items by done.
    cbn [mbind result_bind mret result_ret]. f_equal. f_equal.
    + apply fst_episodes_items.
    + by rewrite <- list_fmap_compose.
  - unfold calculate_number_of_episodes.
    rewrite count_nonzero_cells by done.
    cbn [mbind result_bind mret result_ret]. do 3 f_equal.
    unfold categories_with_episodes.
    rewrite (sumZ_filter_nonzero (λ c, column_episodes c df)).
    rewrite <- nonzero_cells_sum.
    unfold REVENUE_GENERATING_CATEGORIES, DISTINCT_CATEGORIES.
    rewrite !nonzero_cells_cons, nonzero_cells_nil. lia.
Qed.

Lemma episode_slices_in_list_order_witness :
  calculate_episodes_per_category sample_table
  = Ok (mkPieChart ["Consultation"; "Lab"] [Num 1; Num 1] "label+value") ∧
  calculate_number_of_episodes sample_table
  = Ok (mkIndicator (Num 3) "Revenue Generating<br>Episodes").
Proof.
  exact (episode_slices_in_list_order sample_table normalized_sample_table).
Defined.

(** ** The groups of the speciality chart *)

Section string_order.
Implicit Types (a b c k x : string) (l : list string).

Lemma compare_refl a : String.compare a a = Eq.
Proof.
  induction a as [|ch a IH]; [done|]. simpl.
  assert (Ascii.compare ch ch = Eq) as ->; [|done].
  unfold Ascii.compare. apply N.compare_refl.
Qed.

Lemma compare_Gt_Lt a b : String.compare a b = Gt → String.compare b a = Lt.
Proof. intros Hab. by rewrite String.compare_antisym, Hab. Qed.

Lemma compare_Lt_trans a b c :
  String.compare a b = Lt → String.compare b c = Lt →
  String.compare a c = Lt.
Proof.
  intros Hab Hbc.
  assert (String.le a c) as Hac.
  { transitivity b; unfold String.le, String.leb; [by rewrite Hab | by rewrite Hbc]. }
  unfold String.le, String.leb in Hac.
  destruct (String.compare a c) eqn:E; [|done..].
  apply String.compare_eq_iff in E as ->.
  rewrite String.compare_antisym, Hbc in Hab. done.
Qed.

Lemma elem_of_insert_key k l x : x ∈ insert_key k l ↔ x = k ∨ x ∈ l.
Proof.
  induction l as [|y l IH]; simpl.
  - rewrite list_elem_of_singleton, elem_of_nil. tauto.
  - destruct (String.compare k y) eqn:E.
    + apply String.compare_eq_iff in E as ->.
      rewrite elem_of_cons. tauto.
    + rewrite !elem_of_cons. tauto.
    + rewrite !elem_of_cons, IH. tauto.
Qed.

Lemma ascending_insert_key k l : ascending l → ascending (insert_key k l).
Proof.
  induction l as [|y l IH]; intros Hl; simpl.
  - by split.
  - destruct Hl as [Hy Hl]. destruct (String.compare k y) eqn:E.
    + by split.
    + split; [|by split]. constructor; [done|].
      eapply Forall_impl; [done|]. intros z Hz. simpl in Hz.
      by eapply compare_Lt_trans.
    + split; [|by apply IH]. apply Forall_forall.
      intros z [->|Hz]%elem_of_insert_key.
      * by apply compare_Gt_Lt.
      * rewrite Forall_forall in Hy. auto.
Qed.

Lemma ascending_sort_unique l : ascending (sort_unique l).
Proof.
  induction l as [|k l IH]; [done|]. by apply ascending_insert_key.
Qed.

Lemma elem_of_sort_unique l x : x ∈ sort_unique l ↔ x ∈ l.
Proof.
  induction l as [|k l IH]; [done|]. simpl.
  by rewrite elem_of_insert_key, IH, elem_of_cons.
Qed.

Lemma ascending_NoDup l : ascending l → NoDup l.
Proof.
  induction l as [|x l IH]; intros Hl; [constructor|].
  destruct Hl as [Hx Hl]. constructor; [|by apply IH].
  intros Hin. rewrite Forall_forall in Hx. specialize (Hx x Hin).
  by rewrite compare_refl in Hx.
Qed.

(** A character is a code point: the two bytes of an accented letter
    count once. *)
Lemma take_chars_code_points :
  take_chars 6 "Émergency" = "Émerge" ∧ String.length "Émerge" = 7%nat.
Proof. by vm_compute. Qed.

(** On a name of one-byte characters the label is the first six bytes. *)
Lemma take_chars_ascii (n : nat) (s : string) :
  forallb (λ ch : Ascii.ascii, negb (is_continuation ch))
          (String.list_ascii_of_string s) →
  take_chars n s = String.substring 0 n s.
Proof.
  revert n. induction s as [|ch s IH]; intros n Hs; [by destruct n|].
  simpl in Hs. apply andb_True in Hs as [Hch Hs]. simpl.
  destruct (is_continuation ch); [done|].
  destruct n as [|n]; [done|]. by rewrite IH.
Qed.

End string_order.

Section groups.
Implicit Types (df : DataFrame) (pie : PieChart).

(** The parts of a returned speciality chart. *)
Lemma revenue_per_speciality_parts df pie :
  wf df → calculate_revenue_per_speciality df = Ok pie →
  ∃ p q keys,
    get_loc "Speciality" (columns df) = Some p ∧
    get_loc "Net Revenue" (columns df) = Some q ∧
    column_at p df = Str <$> keys ∧
    labels pie = take_chars 6 <$> sort_unique keys ∧
    Forall2 (λ k v, sum_series ((λ r, r !!! q) <$> group_rows p k df) = Ok v)
            (sort_unique keys) (values pie).
Proof.
  intros [Hnd _]. unfold calculate_revenue_per_speciality.
  intros ([index summed] & Hgroup & Hpie)%bind_Ok.
  apply bind_Ok in Hpie as (revenue & Hrev & [= <-]). simpl in Hrev.
  apply groupby_sum_Ok in Hgroup
    as (p & keys & Hp & Hkeys%mapM_as_str_Ok & -> & Hcols & Hsums).
  apply getitem_Ok in Hrev as (j & Hj & ->). rewrite Hcols in Hj.
  apply get_loc_Some, list_lookup_fmap_Some in Hj as (q & Hq & Hjq).
  assert (get_loc "Net Revenue" (columns df) = Some q) as Hloc.
  { apply get_loc_NoDup; [done|]. rewrite Hq.
    apply list_lookup_lookup_total_lt.
    apply list_elem_of_lookup_2, list_elem_of_filter in Hjq as [_ Hin].
    apply elem_of_seq in Hin. lia. }
  exists p, q, keys. repeat split; try done. simpl.
  unfold column_at. apply Forall2_fmap_r.
  eapply Forall2_impl; [done|]. intros k row Hrow. simpl.
  eapply Forall2_lookup_l in Hrow as (v & Hv & Hsum); [|done].
  by rewrite (list_lookup_total_correct _ _ _ Hv).
Qed.

Lemma sumZ_indicator (index : list string) (k0 : string) (z : Z) :
  NoDup index → k0 ∈ index →
  sumZ ((λ k, if decide (k0 = k) then z else 0%Z) <$> index) = z.
Proof.
  induction 1 as [|k index Hk _ IH]; intros Hin;
    [by apply elem_of_nil in Hin|].
  rewrite fmap_cons, sumZ_cons. destruct (decide (k0 = k)) as [->|Hne].
  - assert (sumZ ((λ k', if decide (k = k') then z else 0%Z) <$> index)
            = sumZ ((λ _, 0%Z) <$> index)) as ->.
    { f_equal. apply Forall_fmap_ext_1, Forall_forall. intros k' Hk'.
      rewrite decide_False; [done|]. by intros <-. }
    rewrite sumZ_zero. lia.
  - apply elem_of_cons in Hin as [?|Hin]; [done|]. by rewrite IH.
Qed.

(** The groups split the rows: the group totals add up to the total. *)
Lemma sumZ_groups (f : list cell → Z) p (index : list string)
    (rs : list (list cell)) :
  NoDup index →
  Forall (λ r, ∃ k, k ∈ index ∧ r !!! p = Str k) rs →
  sumZ ((λ k, sumZ (f <$> filter (λ r, r !!! p = Str k) rs)) <$> index)
  = sumZ (f <$> rs).
Proof.
  intros Hnd. induction 1 as [|r rs (k0 & Hk0 & Hr) _ IH].
  - apply sumZ_zero.
  - rewrite fmap_cons, sumZ_cons, <- IH.
    rewrite <- (sumZ_indicator index k0 (f r) Hnd Hk0), <- sumZ_add.
    f_equal. apply list_fmap_ext. intros _ k _. simpl.
    rewrite filter_cons, Hr.
    destruct (decide (k0 = k)) as [->|Hne].
    + rewrite decide_True by done. by rewrite fmap_cons, sumZ_cons.
    + rewrite decide_False by congruence. lia.
Qed.

Lemma forallb_filter {X : Type} (f : X → bool) (P : X → Prop)
    `{!∀ x, Decision (P x)} (l : list X) :
  forallb f l → forallb f (filter P l).
Proof.
  induction l as [|x l IH]; [done|]. simpl. intros [Hx Hl]%andb_True.
  rewrite filter_cons. destruct (decide (P x)); [|by apply IH].
  simpl. apply andb_True. split; [done | by apply IH].
Qed.

Lemma forallb_fmap {X Y : Type} (f : Y → bool) (g : X → Y) (l : list X) :
  forallb f (g <$> l) = forallb (f ∘ g) l.
Proof.
  induction l as [|x l IH]; [done|].
  rewrite fmap_cons. cbn [forallb]. by rewrite IH.
Qed.

Lemma wrap64_sumZ (l : list Z) :
  wrap64 (sumZ (wrap64 <$> l)) = wrap64 (sumZ l).
Proof.
  induction l as [|x l IH]; [done|].
  rewrite fmap_cons, !sumZ_cons, wrap64_add_l.
  by rewrite <- wrap64_add_r, IH, wrap64_add_r.
Qed.

End groups.

(** X11: the speciality chart has one slice for each distinct
    "Speciality" cell of the table, in strictly ascending order of the
    full speciality names; a label is the first six characters (code
    points) of the name. *)
Theorem speciality_slices_in_ascending_order (df : DataFrame)
    (pie : PieChart) :
  wf df → calculate_revenue_per_speciality df = Ok pie →
  ∃ index,
    labels pie = take_chars 6 <$> index ∧
    ascending index ∧ NoDup index ∧
    ∀ k, k ∈ index ↔
         ∃ r, r ∈ rows df ∧ row_cell df r "Speciality" = Some (Str k).
Proof.
  intros Hwf Hpie.
  destruct (revenue_per_speciality_parts df pie Hwf Hpie)
    as (p & q & keys & Hp & _ & Hkeys & Hlabels & _).
  exists (sort_unique keys).
  split; [done|]. split; [apply ascending_sort_unique|].
  split; [apply ascending_NoDup, ascending_sort_unique|].
  intros k. rewrite elem_of_sort_unique.
  assert (k ∈ keys ↔ Str k ∈ column_at p df) as ->.
  { rewrite Hkeys, list_elem_of_fmap. split.
    - intros Hk. by exists k.
    - by intros (k' & [= ->] & Hk'). }
  unfold column_at, row_cell. rewrite Hp, list_elem_of_fmap. simpl.
  split; intros (r & Hr1 & Hr2); exists r.
  - split; [done|]. rewrite Hr1. apply list_lookup_lookup_total_lt.
    eapply wf_position; [done..|]. by eapply get_loc_lt.
  - split; [|done]. symmetry. by apply list_lookup_total_correct.
Qed.

Lemma speciality_slices_in_ascending_order_witness :
  ∃ index,
    ["Cardio"; "Émerge"] = take_chars 6 <$> index ∧
    ascending index ∧ NoDup index ∧
    ∀ k, k ∈ index ↔
         ∃ r, r ∈ rows accented_table ∧
              row_cell accented_table r "Speciality" = Some (Str k).
Proof.
  apply (speciality_slices_in_ascending_order accented_table
           (mkPieChart ["Cardio"; "Émerge"] [Num 50; Num 100]
                       "label+value")).
  - split; [compute_done|]. repeat constructor.
  - vm_compute. reflexivity.
Defined.

(** X12: when the "Net Revenue" column is an [int64] column, the slices
    of a returned speciality chart are 64-bit numbers; added in 64-bit
    arithmetic they give the net-revenue indicator, and they add up to it
    exactly when their sum fits in 64 bits. *)
Theorem speciality_slices_add_up_to_revenue (df : DataFrame)
    (pie : PieChart) :
  wf df → int64_column "Net Revenue" df →
  calculate_revenue_per_speciality df = Ok pie →
  forallb is_int64 (values pie) ∧
  calculate_net_revnenue df
  = Ok (mkIndicator (Num (wrap64 (amount_total (values pie))))
                    "Net Revenue") ∧
  (in_int64 (amount_total (values pie)) →
   calculate_net_revnenue df
   = Ok (mkIndicator (Num (amount_total (values pie))) "Net Revenue")).
Proof.
  intros Hwf Hnum Hpie.
  destruct (revenue_per_speciality_parts df pie Hwf Hpie)
    as (p & q & keys & Hp & Hq & Hkeys & _ & Hsums).
  apply int64_column_Ok in Hnum as (q' & Hq' & Hget & Hnum).
  rewrite Hq in Hq'. injection Hq' as <-.
  assert (values pie
          = (λ k, Num (wrap64 (amount_total
                                 ((λ r, r !!! q) <$> group_rows p k df))))
              <$> sort_unique keys) as Hvals.
  { apply list_eq_Forall2, Forall2_fmap_r, Forall2_flip.
    eapply Forall2_impl; [exact Hsums|]. intros k v Hsum.
    unfold flip. cbv beta in Hsum. simpl.
    rewrite sum_series_int64 in Hsum; [by injection Hsum as <-|].
    unfold column_at in Hnum. rewrite forallb_fmap in Hnum |- *.
    by apply forallb_filter. }
  assert (calculate_net_revnenue df
          = Ok (mkIndicator (Num (wrap64 (amount_total (values pie))))
                            "Net Revenue")) as Hrev.
  { unfold calculate_net_revnenue. rewrite Hget.
    cbn [mbind result_bind]. rewrite sum_series_int64 by done.
    cbn [mbind result_bind mret result_ret]. do 3 f_equal.
    rewrite Hvals. unfold amount_total, column_at, group_rows.
    assert (sumZ (num_of <$> ((λ r, r !!! q) <$> rows df))
            = sumZ ((λ r, num_of (r !!! q)) <$> rows df)) as ->.
    { by rewrite <- list_fmap_compose. }
    assert (num_of <$>
              ((λ k, Num (wrap64 (sumZ (num_of <$>
                 ((λ r, r !!! q)
                    <$> filter (λ r, r !!! p = Str k) (rows df))))))
                 <$> sort_unique keys)
            = wrap64 <$> ((λ k, sumZ ((λ r, num_of (r !!! q))
                      <$> filter (λ r, r !!! p = Str k) (rows df)))
                      <$> sort_unique keys)) as ->.
    { rewrite <- !list_fmap_compose.
      apply list_fmap_ext. intros _ k _. simpl.
      by rewrite <- list_fmap_compose. }
    rewrite wrap64_sumZ. f_equal. symmetry. apply sumZ_groups.
    - apply ascending_NoDup, ascending_sort_unique.
    - apply Forall_forall. intros r Hr.
      assert (r !!! p ∈ column_at p df) as Hin.
      { unfold column_at. apply list_elem_of_fmap. by exists r. }
      rewrite Hkeys in Hin. apply list_elem_of_fmap in Hin as (k & -> & Hk).
      exists k. split; [by apply elem_of_sort_unique | done]. }
  split; [|split; [done|]].
  - rewrite Hvals, forallb_fmap. clear Hvals Hsums Hkeys Hpie Hrev.
    induction (sort_unique keys) as [|k l IH]; [done|].
    cbn [forallb compose is_int64]. apply andb_True.
    split; [apply in_int64_wrap64 | done].
  - intros Hfit. by rewrite Hrev, wrap64_id.
Qed.

Lemma speciality_slices_add_up_to_revenue_witness :
  forallb is_int64 [Num 150] ∧
  calculate_net_revnenue sample_table
  = Ok (mkIndicator (Num (wrap64 (amount_total [Num 150]))) "Net Revenue") ∧
  (in_int64 (amount_total [Num 150]) →
   calculate_net_revnenue sample_table
   = Ok (mkIndicator (Num (amount_total [Num 150])) "Net Revenue")).
Proof.
  apply (speciality_slices_add_up_to_revenue sample_table
           (mkPieChart ["Cardio"] [Num 150] "label+value")).
  - apply normalized_sample_table.
  - compute_done.
  - vm_compute. reflexivity.
Defined.

(** ** The table of the whole pipeline *)

Section pipeline_schema.
Implicit Types (raw : RawTable) (df : DataFrame).

Lemma filter_all {X : Type} (P : X → Prop) `{!∀ x, Decision (P x)}
    (l : list X) :
  Forall P l → filter P l = l.
Proof.
  induction 1 as [|x l Hx _ IH]; [done|].
  by rewrite filter_cons, decide_True, IH by done.
Qed.

Lemma get_df_from_excel_parts raw df :
  wf (rename_cols raw) → get_df_from_excel raw = Ok df →
  columns df
  = filter (λ k, contains "_Net_" k ∧ k ∉ SUB_COLUMNS)
           (columns (rename_cols raw))
    ++ METADATA_COLUMNS ++ DISTINCT_CATEGORIES ∧
  length (rows df) = length (rows raw) ∧
  ∃ dates, getitem "(CVR) Date" df = Ok dates ∧ forallb is_str dates.
Proof.
  intros Hwf Hrun. unfold get_df_from_excel in Hrun.
  apply bind_Ok in Hrun as (sel & Hsel & Hrun).
  destruct (focus_on_specific_columns_cells _ _ Hwf Hsel)
    as (Hcols & Hwfs & Hrows & _ & dates & formatted & _ & _ & Hdate & _ & Hstr).
  destruct (get_revenue_other_columns _ _ Hwfs Hrun) as [Hcols' Hother].
  destruct (get_revenue_over_columns _ _ _ Hwfs sub_free_categories Hrun)
    as (_ & Hrows' & _ & _).
  split; [|split].
  - rewrite Hcols', Hcols, filter_app, list_filter_filter, <- app_assoc.
    f_equal; [|f_equal; try (vm_compute; reflexivity)].
    + apply list_filter_iff. tauto.
    + apply filter_all. apply Forall_forall. intros c Hc.
      rewrite elem_of_app, list_elem_of_filter.
      assert (Forall (λ c, ¬ contains "_Net_" c ∧ c ∉ METADATA_COLUMNS)
                     DISTINCT_CATEGORIES) as Hno by compute_done.
      rewrite Forall_forall in Hno. destruct (Hno c Hc). tauto.
  - by rewrite Hrows', Hrows.
  - exists formatted. split; [|done]. rewrite Hother; [done|compute_done..].
Qed.

End pipeline_schema.

(** X13: a table that [get_df_from_excel] returns for a sheet with
    distinct flat column names has these columns, in this order: the
    "_Net_" columns of the sheet that are no sub-column of a category,
    the eight metadata columns, and the six categories; it has the rows
    of the sheet, every category and metadata column, and text in every
    "(CVR) Date" cell. *)
Theorem pipeline_table_schema (raw : RawTable) (df : DataFrame) :
  wf (rename_cols raw) → get_df_from_excel raw = Ok df →
  columns df
  = filter (λ k, contains "_Net_" k ∧ k ∉ SUB_COLUMNS)
           (columns (rename_cols raw))
    ++ METADATA_COLUMNS ++ DISTINCT_CATEGORIES ∧
  length (rows df) = length (rows raw) ∧
  normalized df ∧
  ∃ dates, getitem "(CVR) Date" df = Ok dates ∧ forallb is_str dates.
Proof.
  intros Hwf Hrun.
  destruct (get_df_from_excel_parts raw df Hwf Hrun) as (Hc & Hr & Hd).
  split; [done|]. split; [done|].
  split; [by eapply get_df_from_excel_normalized | done].
Qed.

Lemma pipeline_table_schema_witness :
  columns sample_table
  = filter (λ k, contains "_Net_" k ∧ k ∉ SUB_COLUMNS)
           (columns (rename_cols two_row_sheet))
    ++ METADATA_COLUMNS ++ DISTINCT_CATEGORIES ∧
  length (rows sample_table) = length (rows two_row_sheet) ∧
  normalized sample_table ∧
  ∃ dates, getitem "(CVR) Date" sample_table = Ok dates ∧
           forallb is_str dates.
Proof.
  apply (pipeline_table_schema two_row_sheet sample_table).
  - split; compute_done.
  - vm_compute. reflexivity.
Defined.

(** ** When the chart is built *)

Section plot_total.
Implicit Types (df : DataFrame) (s : Series).

Lemma foldM_add_text s : ∀ a,
  forallb is_str s → ∃ b, foldM add_cell (Str a) s = Ok (Str b).
Proof.
  induction s as [|c s IH]; intros a Hs; [by eexists|].
  simpl in Hs. apply andb_True in Hs as [Hc Hs].
  destruct c as [|t|]; [done| |done].
  change (foldM add_cell (Str a) (Str t :: s))
    with (foldM add_cell (Str (a +:+ t)) s).
  by apply IH.
Qed.

Lemma sum_series_summable s :
  forallb is_num s || forallb is_str s → ∃ v, sum_series s = Ok v.
Proof.
  intros [Hnum|Hstr]%orb_True.
  - destruct (sum_series_numeric s Hnum) as (z & Hz & _). by exists (Num z).
  - destruct s as [|c s]; [by eexists|].
    simpl in Hstr. apply andb_True in Hstr as [Hc Hs].
    destruct c as [|t|]; [done| |done].
    destruct (foldM_add_text s t Hs) as [b Hb]. by exists (Str b).
Qed.

Lemma mapM_total {X Y : Type} (f : X → result Y) (l : list X) :
  Forall (λ x, ∃ y, f x = Ok y) l → ∃ k, mapM f l = Ok k.
Proof.
  induction 1 as [|x l [y Hy] _ [k Hk]]; [by exists []|].
  exists (y :: k). apply mapM_Ok. constructor; [done|]. by apply mapM_Ok.
Qed.

Lemma mapM_as_str_total s :
  forallb is_str s → ∃ keys, mapM as_str s = Ok keys.
Proof.
  intros Hs. apply mapM_total. apply Forall_forall. intros c Hc.
  apply Is_true_true, forallb_forall with (x := c) in Hs;
    [|by apply list_elem_of_In].
  destruct c; [done| |done]. by eexists.
Qed.

Lemma summable_group df p q k c :
  wf df → columns df !! q = Some c → summable_column c df →
  ∃ v, sum_series ((λ r, r !!! q) <$> group_rows p k df) = Ok v.
Proof.
  intros Hwf Hq Hsum. unfold summable_column, getitem in Hsum.
  rewrite (get_loc_NoDup c _ q) in Hsum by (done || apply Hwf).
  apply sum_series_summable. unfold column_at, group_rows in *.
  rewrite !forallb_fmap in Hsum |- *.
  apply orb_True in Hsum as [Hnum|Hstr]; apply orb_True; [left|right];
    by apply forallb_filter.
Qed.

Lemma revenue_per_speciality_total df :
  wf df → "Net Revenue" ∈ columns df → text_column "Speciality" df →
  Forall (λ k, k = "Speciality" ∨ summable_column k df) (columns df) →
  ∃ pie, calculate_revenue_per_speciality df = Ok pie.
Proof.
  intros Hwf Hrev Htext Hsum. unfold text_column, getitem in Htext.
  destruct (get_loc "Speciality" (columns df)) as [p|] eqn:Hp; [|done].
  destruct (mapM_as_str_total _ Htext) as [keys Hkeys].
  destruct (mapM_total
    (λ k, mapM (λ q, sum_series ((λ r, r !!! q) <$> group_rows p k df))
               (filter (λ q, q ≠ p) (seq 0 (length (columns df)))))
    (sort_unique keys)) as [summed Hsummed].
  { apply Forall_forall. intros k _. apply mapM_total. apply Forall_forall.
    intros q [Hne Hq%elem_of_seq]%list_elem_of_filter.
    destruct (lookup_lt_is_Some_2 (columns df) q) as [c Hc]; [lia|].
    apply (summable_group df p q k c Hwf Hc).
    rewrite Forall_forall in Hsum.
    destruct (Hsum c) as [->|Hc']; [by eapply list_elem_of_lookup_2| |done].
    destruct Hne. apply get_loc_Some in Hp.
    by eapply NoDup_lookup; [apply Hwf|..]. }
  destruct (get_loc_elem_of _ _ Hrev) as [q Hq].
  assert (q ≠ p) as Hne.
  { intros ->. apply get_loc_Some in Hp, Hq. congruence. }
  unfold calculate_revenue_per_speciality, groupby_sum. rewrite Hp, Hkeys.
  cbn [mbind result_bind]. rewrite Hsummed.
  cbn [mbind result_bind mret result_ret snd].
  destruct (getitem_is_Ok (A := cell) "Net Revenue"
    (mkFrame ((λ q, columns df !!! q)
                <$> filter (λ q, q ≠ p) (seq 0 (length (columns df))))
             summed)) as [revenue Hrevenue].
  { simpl. apply list_elem_of_fmap. exists q. split.
    - symmetry. apply list_lookup_total_correct. by apply get_loc_Some.
    - apply list_elem_of_filter. split; [done|]. apply elem_of_seq.
      apply get_loc_lt in Hq. lia. }
  rewrite Hrevenue. by eexists.
Qed.

Lemma caption_text df :
  text_column "(CVR) Date" df → rows df ≠ [] →
  ∃ t, caption df = Ok (Str t).
Proof.
  unfold text_column, caption, getitem. intros Htext Hrows.
  destruct (get_loc "(CVR) Date" (columns df)) as [p|]; [|done].
  cbn [mbind result_bind]. unfold column_at in *.
  destruct (rows df) as [|r rs]; [done|].
  rewrite fmap_cons in Htext |- *. simpl in Htext.
  apply andb_True in Htext as [Hr _].
  destruct (r !!! p) as [|t|]; [done| |done]. by exists t.
Qed.

Lemma new_vs_old_reg_total df :
  numeric_column "New Reg." df → numeric_column "Old Reg." df →
  ∃ pie, calculate_new_vs_old_reg df = Ok pie.
Proof.
  intros (p & _ & Hn & Hnn)%numeric_column_Ok
         (q & _ & Ho & Hon)%numeric_column_Ok.
  destruct (sum_series_numeric _ Hnn) as (x & Hx & _).
  destruct (sum_series_numeric _ Hon) as (y & Hy & _).
  unfold calculate_new_vs_old_reg. rewrite Hn. cbn [mbind result_bind].
  rewrite Hx. cbn [mbind result_bind].
  rewrite Ho. cbn [mbind result_bind].
  rewrite Hy. by eexists.
Qed.

Lemma insurance_total df :
  numeric_column "Ins." df → numeric_column "Net Revenue" df →
  ∃ pie, calculate_insurance_vs_non_insurance df = Ok pie.
Proof.
  intros (p & _ & Hi & Hin)%numeric_column_Ok
         (q & _ & Hr & Hrn)%numeric_column_Ok.
  destruct (sum_series_numeric _ Hin) as (x & Hx & _).
  destruct (sum_series_numeric _ Hrn) as (y & Hy & _).
  unfold calculate_insurance_vs_non_insurance.
  rewrite Hi. cbn [mbind result_bind].
  rewrite Hx. cbn [mbind result_bind].
  rewrite Hr. cbn [mbind result_bind].
  rewrite Hy. by eexists.
Qed.

Lemma net_revenue_total df :
  numeric_column "Net Revenue" df →
  ∃ ind, calculate_net_revnenue df = Ok ind.
Proof.
  intros (q & _ & Hr & Hrn)%numeric_column_Ok.
  destruct (sum_series_numeric _ Hrn) as (x & Hx & _).
  unfold calculate_net_revnenue. rewrite Hr. cbn [mbind result_bind].
  rewrite Hx. by eexists.
Qed.

Lemma make_plot_total df :
  normalized df → rows df ≠ [] →
  Forall (λ k, numeric_column k df)
         ["Net Revenue"; "Ins."; "New Reg."; "Old Reg."] →
  text_column "Speciality" df → text_column "(CVR) Date" df →
  Forall (λ k, k = "Speciality" ∨ summable_column k df) (columns df) →
  ∃ fig, make_plot df = Ok fig.
Proof.
  intros [Hwf Hcols] Hrows Hnum Htext Hdate Hsum.
  assert (Hcols' := Hcols). apply Forall_app in Hcols' as [Hcats Hmeta].
  rewrite Forall_forall in Hmeta.
  apply Forall_cons in Hnum as [Hrev Hnum].
  apply Forall_cons in Hnum as [Hins Hnum].
  apply Forall_cons in Hnum as [Hnew Hnum].
  apply Forall_cons in Hnum as [Hold _].
  destruct (caption_text df Hdate Hrows) as [c Hc].
  destruct (net_revenue_total df Hrev) as [rev Hrevenue].
  destruct (foldM_counted_total df REVENUE_GENERATING_CATEGORIES [] Hwf Hcats)
    as [d Hd].
  destruct (new_vs_old_reg_total df Hnew Hold) as [reg Hreg].
  destruct (revenue_per_speciality_total df Hwf) as [spec Hspec];
    [apply Hmeta; compute_done | done..|].
  destruct (insurance_total df Hins Hrev) as [ins Hinsurance].
  unfold make_plot, calculate_number_of_episodes,
    calculate_episodes_per_category.
  rewrite Hc. cbn [mbind result_bind make_subplots].
  rewrite count_nonzero_cells, Hrevenue, Hd, Hreg, Hspec, Hinsurance
    by done.
  by eexists.
Qed.

End plot_total.

(** X14: [make_plot] returns a chart for every normalized table with at
    least one row whose "Net Revenue", "Ins.", "New Reg." and "Old Reg."
    columns hold numbers, whose "Speciality" and "(CVR) Date" columns hold
    text, and whose other columns each hold numbers only or text only;
    the caption of the chart is the first "(CVR) Date" cell.  On a table
    whose "(CVR) Date" column is an [int64] column with a first cell other
    than zero the caption is refused: [make_plot] raises [ValueError]. *)
Theorem chart_is_built_for_typed_tables (df : DataFrame) :
  (normalized df → rows df ≠ [] →
   Forall (λ k, numeric_column k df)
          ["Net Revenue"; "Ins."; "New Reg."; "Old Reg."] →
   text_column "Speciality" df → text_column "(CVR) Date" df →
   Forall (λ k, k = "Speciality" ∨ summable_column k df) (columns df) →
   ∃ fig, make_plot df = Ok fig ∧ caption df = Ok (x_title fig)) ∧
  (∀ z : Z, int64_column "(CVR) Date" df →
            caption df = Ok (Num z) → z ≠ 0%Z →
            make_plot df = Raise ValueError).
Proof.
  split.
  - intros Hnorm Hrows Hnum Htext Hdate Hsum.
    destruct (make_plot_total df Hnorm Hrows Hnum Htext Hdate Hsum)
      as [fig Hfig].
    exists fig. split; [done|]. revert Hfig. unfold make_plot.
    destruct (caption df) as [c|e]; [|done]. cbn [mbind result_bind].
    intros Hfig. destruct (make_subplots c); [|done].
    cbn [mbind result_bind] in Hfig.
    repeat match type of Hfig with
    | context [mbind _ ?m] => destruct m; [|done];
                               cbn [mbind result_bind] in Hfig
    end.
    by injection Hfig as <-.
  - intros z _ Hc Hz. unfold make_plot. rewrite Hc.
    cbn [mbind result_bind make_subplots]. by rewrite decide_False.
Qed.

Lemma chart_is_built_for_typed_tables_witness :
  (∃ fig, make_plot sample_table = Ok fig ∧
          caption sample_table = Ok (x_title fig)) ∧
  make_plot numeric_date_table = Raise ValueError.
Proof.
  split.
  - apply (proj1 (chart_is_built_for_typed_tables sample_table)).
    + apply normalized_sample_table.
    + done.
    + compute_done.
    + compute_done.
    + compute_done.
    + compute_done.
  - apply (proj2 (chart_is_built_for_typed_tables numeric_date_table)
             20240307%Z).
    + compute_done.
    + vm_compute. reflexivity.
    + done.
Defined.

(** ** What the upload handler shows *)

Section shown.
Implicit Types (raw : RawTable) (df : DataFrame) (fig : Figure).

Lemma make_plot_caption df fig :
  make_plot df = Ok fig → caption df = Ok (x_title fig).
Proof.
  unfold make_plot. intros (c & Hc & Hrest)%bind_Ok. inv_ok. subst fig. exact Hc.
Qed.

Lemma handle_upload_Shown raw df fig :
  handle_upload raw = Shown df fig →
  get_df_from_excel raw = Ok df ∧ make_plot df = Ok fig.
Proof.
  unfold handle_upload.
  destruct (get_df_from_excel raw) as [d|e] eqn:Hd; [|done].
  cbn [mbind result_bind]. destruct (make_plot d) as [f|e] eqn:Hf; [|done].
  cbn [mbind result_bind mret result_ret]. intros [= <- <-]. by split.
Qed.

End shown.

(** X15: when the upload handler shows a chart for a sheet with distinct
    flat column names, the table it shows is normalized and has a first
    row, and the caption of the chart is that row's "(CVR) Date" cell, a
    text. *)
Theorem shown_chart_is_captioned_with_first_date (raw : RawTable)
    (df : DataFrame) (fig : Figure) :
  wf (rename_cols raw) → handle_upload raw = Shown df fig →
  normalized df ∧
  ∃ r rs s, rows df = r :: rs ∧
            row_cell df r "(CVR) Date" = Some (Str s) ∧
            x_title fig = Str s.
Proof.
  intros Hwf [Hdf Hfig]%handle_upload_Shown.
  pose proof (get_df_from_excel_normalized raw df Hwf Hdf) as Hnorm.
  split; [done|].
  destruct (get_df_from_excel_parts raw df Hwf Hdf)
    as (_ & _ & dates & Hdates & Hstr).
  apply make_plot_caption in Hfig. unfold caption in Hfig.
  rewrite Hdates in Hfig. cbn [mbind result_bind] in Hfig.
  unfold iloc in Hfig. destruct (dates !! 0%nat) as [c|] eqn:Hc; [|done].
  injection Hfig as Hfig.
  assert (∃ s, c = Str s) as [s ->].
  { apply Is_true_true, forallb_forall with (x := c) in Hstr.
    - destruct c; try done. by eexists.
    - apply list_elem_of_In. by eapply list_elem_of_lookup_2. }
  rewrite <- (cell_at_getitem df _ _ 0%nat (proj1 Hnorm) Hdates) in Hc.
  unfold cell_at in Hc. destruct (rows df) as [|r rs]; [done|].
  simpl in Hc. exists r, rs, s. by rewrite <- Hfig.
Qed.

Lemma shown_chart_is_captioned_with_first_date_witness :
  ∃ fig, handle_upload two_row_sheet = Shown sample_table fig ∧
    normalized sample_table ∧
    ∃ r rs s, rows sample_table = r :: rs ∧
              row_cell sample_table r "(CVR) Date" = Some (Str s) ∧
              x_title fig = Str s.
Proof.
  destruct (make_plot sample_table) as [fig|] eqn:Hfig;
    [|by vm_compute in Hfig].
  exists fig.
  assert (handle_upload two_row_sheet = Shown sample_table fig) as Hshow.
  { unfold handle_upload.
    assert (get_df_from_excel two_row_sheet = Ok sample_table) as ->
      by (vm_compute; reflexivity).
    cbn [mbind result_bind]. by rewrite Hfig. }
  split; [done|].
  apply (shown_chart_is_captioned_with_first_date two_row_sheet
           sample_table fig); [split; compute_done | done].
Defined.

(** ** A missing category column *)

(** X16: when a category column is missing from the table, the episode
    indicator raises [KeyError] with the category among the missing
    labels, and the episode chart raises [KeyError] for the first missing
    category in the order of the list. *)
Theorem episodes_report_missing_category (df : DataFrame)
    (done todo : list string) (c : string) :
  REVENUE_GENERATING_CATEGORIES = done ++ c :: todo →
  wf df → Forall (λ k, k ∈ columns df) done → c ∉ columns df →
  calculate_episodes_per_category df = Raise (KeyError [c]) ∧
  ∃ missing, calculate_number_of_episodes df = Raise (KeyError missing) ∧
             c ∈ missing.
Proof.
  intros Hcats Hwf Hdone Hc. split.
  - destruct (foldM_counted_total df done [] Hwf Hdone) as [d Hd].
    unfold calculate_episodes_per_category.
    rewrite Hcats, foldM_app, Hd. cbn [mbind result_bind foldM].
    unfold episodes_step, count_nonzero.
    rewrite (getitem_list_missing [c] df c); [|by apply elem_of_cons; auto|done].
    by rewrite filter_cons, decide_True, filter_nil by done.
  - eexists. split.
    + unfold calculate_number_of_episodes, count_nonzero.
      by rewrite (getitem_list_missing _ df c);
        [| rewrite Hcats, elem_of_app, elem_of_cons; auto | done].
    + apply list_elem_of_filter. split; [done|].
      rewrite Hcats, elem_of_app, elem_of_cons. auto.
Qed.

Lemma episodes_report_missing_category_witness :
  calculate_episodes_per_category sample_table_without_radiology
  = Raise (KeyError ["Radiology"]) ∧
  ∃ missing,
    calculate_number_of_episodes sample_table_without_radiology
    = Raise (KeyError missing) ∧ "Radiology" ∈ missing.
Proof.
  apply (episodes_report_missing_category sample_table_without_radiology
           ["Consultation"; "Lab"] ["Procedure"; "Lab"; "Consumable"; "Drug"]
           "Radiology").
  - reflexivity.
  - split; compute_done.
  - compute_done.
  - compute_done.
Defined.
